(** * Shortest distance between two point clouds

    A shallow embedding of [find_shortest_distance] from
    [find_shortest_distance_between_two_point_clouds.ipynb] and the
    properties its specification states about it.

    Conventions of the embedding.
    - A point is a list of integer coordinates, and an array carries its
      scalar type.  The coordinates of an [int64] array are its entries.
      Every finite cloud of floats is a cloud of dyadic rationals, hence,
      scaled by a common power of two, a cloud of integers: those are the
      coordinates of a [float64] array.  Every property below compares
      distances with each other and is invariant under that scaling.
      Rounding of floats is not modelled: "within floating-point tolerance"
      is read as equality in exact arithmetic.  The wrap-around of [int64]
      is modelled where the notebook itself computes on integers, in the
      subtraction of its last statement.
    - A Euclidean distance is the real number [sqrt] of an integer sum of
      squares.  Nearest-neighbour decisions are taken on the integer sums
      of squares, so that every index the program computes can be evaluated.
    - The calls into scipy and numpy are recorded in a log of events, so that
      "before any index is built" is a statement about the program.
    - [while 1] is unrolled by a fuel argument; [OutOfFuel] is an artefact of
      the model, never an outcome of the Python program. *)

From Stdlib Require Import String List ZArith Arith Bool Lia Reals Lra.
Import ListNotations.

Local Open Scope Z_scope.

(** ** Points and arrays *)

Definition point := list Z.

(** The scalar types an array of the notebook can have: what
    [np.asarray] gives for integer literals, and what the sampler and any
    float literal give. *)
Inductive scalar_type : Type :=
| int64
| float64.

(** An [n x m] numpy array: [dtype] is its scalar type, [shape0] is [n],
    [ncols] is [m]. *)
Record ndarray := mk_ndarray {
  dtype : scalar_type;
  ncols : nat;
  rows : list point
}.

(** [a.shape[0]]. *)
Definition shape0 (a : ndarray) : nat := length (rows a).

(** Every row has [ncols] coordinates, as in any numpy array. *)
Definition wf_ndarray (a : ndarray) : Prop :=
  Forall (fun p => length p = ncols a) (rows a).

Definition wf_ndarrayb (a : ndarray) : bool :=
  forallb (fun p => Nat.eqb (length p) (ncols a)) (rows a).

(** ** Vectors and the Euclidean norm *)

(** The exact difference of two points, coordinate by coordinate: what the
    Euclidean distance is made of.  The subtraction the notebook itself
    performs is [array_sub] below. *)
Fixpoint vsub (x y : point) : point :=
  match x, y with
  | a :: x', b :: y' => (a - b) :: vsub x' y'
  | _, _ => []
  end.

(** The sum of the squares of the coordinates. *)
Definition sqnorm (v : point) : Z :=
  fold_right (fun a acc => a * a + acc) 0 v.

(** The squared Euclidean distance, on which lookups compare. *)
Definition sqdist (x y : point) : Z := sqnorm (vsub x y).

(** [np.linalg.norm] of a one-dimensional array. *)
Definition norm (v : point) : R := sqrt (IZR (sqnorm v)).

(** The Euclidean distance of two points. *)
Definition distance (x y : point) : R := norm (vsub x y).

(** A 64-bit two's-complement integer: the value [z] wraps to. *)
Definition wrap_int64 (z : Z) : Z := (z + 2 ^ 63) mod 2 ^ 64 - 2 ^ 63.

(** The scalar type of [x - y] for rows of arrays of scalar types [s] and
    [t]: integers stay integers, anything else is promoted to float. *)
Definition result_dtype (s t : scalar_type) : scalar_type :=
  match s, t with
  | int64, int64 => int64
  | _, _ => float64
  end.

(** [x - y] on two rows, computed in the scalar type [s] of the result: it
    wraps around on [int64].  numpy refuses two rows of different lengths;
    the program only subtracts rows that a lookup has accepted, so the
    model stops at the shorter one. *)
Definition array_sub (s : scalar_type) (x y : point) : point :=
  match s with
  | int64 => map wrap_int64 (vsub x y)
  | float64 => vsub x y
  end.

(** ** Outcomes, events and the monad of the embedding *)

Inductive exn : Type :=
| Exception (msg : string)      (* [raise Exception(msg)] in the notebook *)
| DimensionMismatchError        (* raised by a nearest-neighbour query *)
| IndexError                    (* numpy indexing out of range *)
| ValueError (msg : string)     (* numpy reduction over an empty array *)
| NonConvergenceError.          (* named by the specification only *)

Inductive event : Type :=
| EvKDTree (data : ndarray)             (* [spatial.KDTree(data)] *)
| EvQuery (data : ndarray) (x : point)  (* one nearest-neighbour lookup *)
| EvQueryArray (data xs : ndarray)      (* one lookup call for an array *)
| EvNorm (v : point).                   (* [np.linalg.norm(v)] *)

Inductive outcome (A : Type) : Type :=
| Returned (a : A)
| Raised (e : exn)
| OutOfFuel.

Arguments Returned {A} a.
Arguments Raised {A} e.
Arguments OutOfFuel {A}.

(** A computation yields an outcome and the events it emitted, oldest first. *)
Definition M (A : Type) : Type := (outcome A * list event)%type.

Definition ret {A} (a : A) : M A := (Returned a, []).
Definition raise {A} (e : exn) : M A := (Raised e, []).
Definition out_of_fuel {A} : M A := (OutOfFuel, []).
Definition emit (e : event) : M unit := (Returned tt, [e]).

Definition bind {A B} (m : M A) (f : A -> M B) : M B :=
  match m with
  | (Returned a, l) => let '(o, l') := f a in (o, l ++ l')
  | (Raised e, l) => (Raised e, l)
  | (OutOfFuel, l) => (OutOfFuel, l)
  end.

Notation "x <- m ;; k" := (bind m (fun x => k))
  (at level 61, m at next level, right associativity).
Notation "' pat <- m ;; k" := (bind m (fun x => let 'pat := x in k))
  (at level 61, pat pattern, m at next level, right associativity).
Notation "m ;;; k" := (bind m (fun _ => k))
  (at level 61, right associativity).

Definition result {A} (m : M A) : outcome A := fst m.
Definition events {A} (m : M A) : list event := snd m.

(** [a[i]] on the first axis. *)
Definition getitem (a : ndarray) (i : nat) : M point :=
  match nth_error (rows a) i with
  | Some p => ret p
  | None => raise IndexError
  end.

(** [l[-1]] on a Python list. *)
Definition last_item (l : list nat) : M nat :=
  match l with
  | [] => raise IndexError
  | _ => ret (last l 0%nat)
  end.

(** ** The nearest-neighbour index *)

(** Modelled from the spec: [scipy.spatial.KDTree] is a library the notebook
    imports; its tree and its search are not part of the repository.  The
    specification's SpatialIndex contract stands for them: a query is exact,
    returns the index a linear scan of the cloud returns, and breaks ties by
    lowest index.  [scan] is that linear scan: [i] is the index of the head
    of [pts], [best] the index of the nearest point so far and [bestd] its
    squared distance; only a strictly nearer point replaces it. *)
Fixpoint scan (x : point) (best : nat) (bestd : Z) (i : nat)
         (pts : list point) : nat :=
  match pts with
  | [] => best
  | p :: ps =>
      if sqdist p x <? bestd
      then scan x i (sqdist p x) (S i) ps
      else scan x best bestd (S i) ps
  end.

(** Modelled from the spec: the index of the stored point nearest to [x],
    lowest index first among equals (the search of [scipy.spatial.KDTree],
    which the repository does not contain). *)
Definition nearest (pts : list point) (x : point) : nat :=
  match pts with
  | [] => 0%nat
  | p :: ps => scan x 0%nat (sqdist p x) 1%nat ps
  end.

(** Modelled from the spec: the index object of [scipy.spatial.KDTree], kept
    as the array it was built over; the partition of space inside it is not
    observable through exact queries. *)
Record KDTree := mk_KDTree { data : ndarray }.

(** [spatial.KDTree(a)]. *)
Definition KDTree_new (a : ndarray) : M KDTree :=
  emit (EvKDTree a) ;;; ret (mk_KDTree a).

(** The pair [(distance, index)] a lookup of [x] answers. *)
Definition nn_answer (t : KDTree) (x : point) : R * nat :=
  let i := nearest (rows (data t)) x in
  (distance (nth i (rows (data t)) []) x, i).

(** Modelled from the spec: [tree.query(x, k=1)] for one point [x]; a point
    whose dimensionality differs from the index's is rejected before the
    tree is searched. *)
Definition query (t : KDTree) (x : point) : M (R * nat) :=
  if Nat.eqb (length x) (ncols (data t))
  then emit (EvQuery (data t) x) ;;; ret (nn_answer t x)
  else raise DimensionMismatchError.

(** Modelled from the spec: [tree.query(xs)] for an array of points, one
    call that answers for every row; the arrays of distances and of indices
    it returns are a pair of lists here. *)
Definition query_array (t : KDTree) (xs : ndarray)
  : M (list R * list nat) :=
  if Nat.eqb (ncols xs) (ncols (data t))
  then emit (EvQueryArray (data t) xs) ;;;
       ret (map fst (map (nn_answer t) (rows xs)),
            map snd (map (nn_answer t) (rows xs)))
  else raise DimensionMismatchError.

(** [np.amin] of a one-dimensional array. *)
Definition amin (ds : list R) : M R :=
  match ds with
  | [] => raise (ValueError "zero-size array to reduction operation minimum which has no identity")
  | d :: ds' => ret (fold_left Rmin ds' d)
  end.

(** [np.linalg.norm(x - y)] for rows of scalar types that give [s]: the
    subtraction is done in [s], the norm in floats. *)
Definition linalg_norm_sub (s : scalar_type) (x y : point) : M R :=
  emit (EvNorm (array_sub s x y)) ;;; ret (norm (array_sub s x y)).

(** ** [find_shortest_distance] *)

(** [while 1: body], where the body either breaks or goes round again. *)
Inductive flow (S : Type) : Type :=
| Break (s : S)
| Continue (s : S).

Arguments Break {S} s.
Arguments Continue {S} s.

Fixpoint while_1 {S} (fuel : nat) (body : S -> M (flow S)) (s : S) : M S :=
  match fuel with
  | O => out_of_fuel
  | Datatypes.S fuel' =>
      f <- body s ;;
      match f with
      | Break s' => ret s'
      | Continue s' => while_1 fuel' body s'
      end
  end.

(** The two lists the loop appends to. *)
Definition trace := (list nat * list nat)%type.

(** One pass through the body of the loop of method ['new']. *)
Definition loop_body (reference_points query_points : ndarray)
           (reference_kd_tree query_kd_tree : KDTree)
           (st : trace) : M (flow trace) :=
  let '(reference_indices, query_indices) := st in
  r <- last_item reference_indices ;;
  reference_point <- getitem reference_points r ;;
  '(query_d, query_index) <- query query_kd_tree reference_point ;;
  let query_indices := query_indices ++ [query_index] in
  q <- last_item query_indices ;;
  query_point <- getitem query_points q ;;
  '(reference_d, reference_index) <- query reference_kd_tree query_point ;;
  r' <- last_item reference_indices ;;
  if Nat.eqb reference_index r'
  then ret (Break (reference_indices, query_indices))
  else ret (Continue (reference_indices ++ [reference_index], query_indices)).

(** What the function returns: a triple for ['new'], a scalar for
    ['exhaustive']. *)
Inductive retval : Type :=
| RNew (d : R) (reference_indices query_indices : list nat)
| RExhaustive (d : R).

Definition find_shortest_distance (fuel : nat)
           (reference_points query_points : ndarray) (method : string)
  : M retval :=
  if (Nat.eqb (shape0 reference_points) 0 || Nat.eqb (shape0 query_points) 0)%bool
  then raise (Exception "The input point clouds cannot be empty!")
  else
    query_kd_tree <- KDTree_new query_points ;;
    if String.eqb method "new" then
      reference_kd_tree <- KDTree_new reference_points ;;
      st <- while_1 fuel
              (loop_body reference_points query_points
                         reference_kd_tree query_kd_tree)
              ([0%nat], []) ;;
      let '(reference_indices, query_indices) := st in
      r <- last_item reference_indices ;;
      reference_point <- getitem reference_points r ;;
      q <- last_item query_indices ;;
      query_point <- getitem query_points q ;;
      d <- linalg_norm_sub (result_dtype (dtype reference_points)
                                         (dtype query_points))
                           reference_point query_point ;;
      ret (RNew d reference_indices query_indices)
    else if String.eqb method "exhaustive" then
      '(distances, indices) <- query_array query_kd_tree reference_points ;;
      d <- amin distances ;;
      ret (RExhaustive d)
    else
      raise (Exception "The selected method is incorrect! Only 'new' or 'exhaustive' method can be used.").

Arguments nearest : simpl never.
Arguments distance : simpl never.
Arguments norm : simpl never.
Arguments nn_answer : simpl never.

(** ** Predicates and functions of the proofs *)

(** [i] is the index of the first point of [pts] nearest to [x]. *)
Definition first_nearest (pts : list point) (x : point) (i : nat) : Prop :=
  exists p, nth_error pts i = Some p /\
    (forall j p', nth_error pts j = Some p' -> sqdist p x <= sqdist p' x) /\
    (forall j p', (j < i)%nat -> nth_error pts j = Some p' ->
                  sqdist p x < sqdist p' x).

(** ** The alternation as a function on anchors *)

(** The query index the loop appends when the anchor is [r]. *)
Definition nn_query (A B : list point) (r : nat) : nat :=
  nearest B (nth r A []).

(** The reference index the second lookup of a pass returns. *)
Definition next_anchor (A B : list point) (r : nat) : nat :=
  nearest A (nth (nn_query A B r) B []).

(** Squared distance from the anchor to its nearest query point. *)
Definition round_trip (A B : list point) (r : nat) : Z :=
  sqdist (nth r A []) (nth (nn_query A B r) B []).

(** The indices the loop appends from anchor [r] on, anchor included. *)
Fixpoint alternate (A B : list point) (fuel : nat) (r : nat)
  : option (list nat * list nat) :=
  match fuel with
  | O => None
  | S fuel' =>
      if Nat.eqb (next_anchor A B r) r
      then Some ([r], [nn_query A B r])
      else match alternate A B fuel' (next_anchor A B r) with
           | Some (rs, qs) => Some (r :: rs, nn_query A B r :: qs)
           | None => None
           end
  end.

(** The same, as a relation: [run A B r rs qs] when the loop entered with
    anchor [r] leaves with [rs] and [qs] appended. *)
Inductive run (A B : list point) : nat -> list nat -> list nat -> Prop :=
| run_break r :
    next_anchor A B r = r ->
    run A B r [r] [nn_query A B r]
| run_continue r rs qs :
    next_anchor A B r <> r ->
    run A B (next_anchor A B r) rs qs ->
    run A B r (r :: rs) (nn_query A B r :: qs).

(** What decreases from one pass to the next: the round-trip distance, and
    on a plateau the anchor index. *)
Definition measure (A B : list point) (r : nat) : Z :=
  round_trip A B r * Z.of_nat (length A) + Z.of_nat r.

Definition enough_fuel (A B : list point) : nat :=
  S (Z.to_nat (measure A B 0)).

(** Distance from each reference point to its nearest query point. *)
Definition nn_distances (A B : list point) : list R :=
  map (fun a => distance (nth (nearest B a) B []) a) A.

(** ** The distance of the last statement *)

(** [z] is a 64-bit two's-complement integer. *)
Definition fits_int64 (z : Z) : Prop := - 2 ^ 63 <= z < 2 ^ 63.

Definition fits_int64b (z : Z) : bool := (- 2 ^ 63 <=? z) && (z <? 2 ^ 63).

(** The subtraction of a reference row and a query row does not wrap
    around: one of the arrays holds floats, or every difference of a
    reference coordinate and a query coordinate fits in 64 bits. *)
Definition no_wraparound (a b : ndarray) : Prop :=
  dtype a = int64 -> dtype b = int64 ->
  forall p q, In p (rows a) -> In q (rows b) -> Forall fits_int64 (vsub p q).

Definition no_wraparoundb (a b : ndarray) : bool :=
  match result_dtype (dtype a) (dtype b) with
  | float64 => true
  | int64 =>
      forallb (fun p => forallb (fun q => forallb fits_int64b (vsub p q))
                                (rows b))
              (rows a)
  end.

(** What the last statement of method ['new'] computes for a trace: the
    norm of the difference, taken in the arrays' scalar type, of the last
    reference point and the last query point. *)
Definition returned_distance (a b : ndarray) (ris qis : list nat) : R :=
  norm (array_sub (result_dtype (dtype a) (dtype b))
                  (nth (last ris 0%nat) (rows a) [])
                  (nth (last qis 0%nat) (rows b) [])).

(** ** Valid input *)

(** Two non-empty arrays whose rows all have the same number of columns. *)
Definition valid_input (a b : ndarray) : Prop :=
  wf_ndarray a /\ wf_ndarray b /\ ncols a = ncols b /\
  (0 < shape0 a)%nat /\ (0 < shape0 b)%nat.

Definition valid_inputb (a b : ndarray) : bool :=
  wf_ndarrayb a && wf_ndarrayb b && Nat.eqb (ncols a) (ncols b)
  && Nat.ltb 0 (shape0 a) && Nat.ltb 0 (shape0 b).

(** The distance of the [k]-th pair of a trace. *)
Definition pair_distance (a b : ndarray) (ris qis : list nat) (k : nat) : R :=
  distance (nth (nth k ris 0%nat) (rows a) [])
           (nth (nth k qis 0%nat) (rows b) []).

(** ** No iteration cap *)

Definition never_nonconvergence {X} (m : M X) : Prop :=
  result m <> Raised NonConvergenceError.

Ltac nc_now := unfold never_nonconvergence; cbn; discriminate.

(** ** A family of inputs that needs as many passes as one likes *)

(** Points on a line with gaps that shrink from left to right:
    [stair_pos k t] for [t = 0 .. 2k], reference points at the even [t] and
    query points at the odd [t].  From index 0 the alternation steps through
    every reference point in turn. *)
Definition stair_pos (k t : nat) : Z :=
  Z.of_nat t * (4 * Z.of_nat k + 1 - Z.of_nat t).

Definition stair_reference (k : nat) : ndarray :=
  mk_ndarray float64 1 (map (fun i => [stair_pos k (2 * i)]) (seq 0 (S k))).

Definition stair_query (k : nat) : ndarray :=
  mk_ndarray float64 1 (map (fun i => [stair_pos k (2 * i + 1)]) (seq 0 k)).

(** What C8 asks of the loop: a cap such that every valid input on which
    that many passes have not reached a fixed point (the loop unrolled [cap]
    times is still running) ends in [NonConvergenceError]. *)
Definition has_iteration_cap : Prop :=
  exists cap, forall reference_points query_points,
    valid_input reference_points query_points ->
    result (find_shortest_distance cap reference_points query_points "new")
    = OutOfFuel ->
    exists fuel,
      result (find_shortest_distance fuel reference_points query_points "new")
      = Raised NonConvergenceError.

(** ** Convex hulls *)

(** Coordinate [c] of the combination of the points [pts] with the
    coefficients [ws]. *)
Definition coord_sum (ws : list R) (pts : list point) (c : nat) : R :=
  fold_right Rplus 0%R
             (map (fun wp : R * point => (fst wp * IZR (nth c (snd wp) 0%Z))%R)
                  (combine ws pts)).

(** One coefficient per point, none negative, of sum one. *)
Definition convex_weights (ws : list R) (pts : list point) : Prop :=
  length ws = length pts /\
  Forall (fun w => (0 <= w)%R) ws /\
  fold_right Rplus 0%R ws = 1%R.

(** The two convex hulls have a point in common. *)
Definition hulls_meet (a b : ndarray) : Prop :=
  exists ws us,
    convex_weights ws (rows a) /\ convex_weights us (rows b) /\
    forall c, (c < ncols a)%nat ->
              coord_sum ws (rows a) c = coord_sum us (rows b) c.

Definition hulls_disjoint (a b : ndarray) : Prop := ~ hulls_meet a b.

(** ** Inputs the statements are tried on *)

(** Two reference points on the line [y = 0], two query points above it; the
    closest pair is the second of each. *)
Definition skew_reference : ndarray := mk_ndarray int64 2 [[0; 0]; [10; 0]].
Definition skew_query : ndarray := mk_ndarray int64 2 [[0; 3]; [10; 1]].

(** A cloud of another dimensionality. *)
Definition space_query : ndarray := mk_ndarray int64 3 [[1; 2; 3]].

(** The scenario of the specification. *)
Definition scenario_reference : ndarray := mk_ndarray int64 2 [[0; 0]; [10; 10]].
Definition scenario_query : ndarray := mk_ndarray int64 2 [[0; 1]; [10; 11]].

(** A reference cloud without points. *)
Definition no_points : ndarray := mk_ndarray float64 2 [].

(** ** The lookups of a run *)


(** ** [show_search_path] *)

(** [l[i]] on a Python list. *)
Definition list_item (l : list nat) (i : nat) : M nat :=
  match nth_error l i with
  | Some k => ret k
  | None => raise IndexError
  end.

(** [p[c]] on a row. *)
Definition coordinate (p : point) (c : nat) : M Z :=
  match nth_error p c with
  | Some v => ret v
  | None => raise IndexError
  end.

(** [a[l[i]][c]]. *)
Definition cell (a : ndarray) (l : list nat) (i c : nat) : M Z :=
  k <- list_item l i ;;
  p <- getitem a k ;;
  coordinate p c.

(** [a[:, c]]. *)
Definition column (a : ndarray) (c : nat) : M (list Z) :=
  if Nat.ltb c (ncols a)
  then ret (map (fun p => nth c p 0) (rows a))
  else raise IndexError.

(** [for i in range_: body], threading what the body updates. *)
Fixpoint for_each {S} (range_ : list nat) (body : nat -> S -> M S) (s : S)
  : M S :=
  match range_ with
  | [] => ret s
  | i :: rest => s' <- body i s ;; for_each rest body s'
  end.

(** The eight appends of one pass through the loop of [show_search_path]. *)
Definition path_body (reference_points : ndarray) (reference_indices : list nat)
           (query_points : ndarray) (query_indices : list nat)
           (i : nat) (xy : list Z * list Z) : M (list Z * list Z) :=
  let '(x, y) := xy in
  c <- cell reference_points reference_indices i 0 ;;
  let x := x ++ [c] in
  c <- cell reference_points reference_indices i 1 ;;
  let y := y ++ [c] in
  c <- cell query_points query_indices i 0 ;;
  let x := x ++ [c] in
  c <- cell query_points query_indices i 1 ;;
  let y := y ++ [c] in
  c <- cell query_points query_indices (i + 1) 0 ;;
  let x := x ++ [c] in
  c <- cell query_points query_indices (i + 1) 1 ;;
  let y := y ++ [c] in
  c <- cell reference_points reference_indices (i + 1) 0 ;;
  let x := x ++ [c] in
  c <- cell reference_points reference_indices (i + 1) 1 ;;
  let y := y ++ [c] in
  ret (x, y).

(** What the three calls of [plt.plot] are given: the marks of the two
    clouds and the path, each as its abscissas and its ordinates. *)
Record figure := mk_figure {
  reference_marks : list Z * list Z;
  query_marks : list Z * list Z;
  path : list Z * list Z
}.

(** [show_search_path]; the Python function returns nothing and draws, the
    embedding returns what it hands to the plotting library. *)
Definition show_search_path (reference_points : ndarray)
           (reference_indices : list nat)
           (query_points : ndarray) (query_indices : list nat) : M figure :=
  xy <- for_each (seq 0 (length reference_indices - 1))
                 (path_body reference_points reference_indices
                            query_points query_indices)
                 ([], []) ;;
  let '(x, y) := xy in
  rx <- column reference_points 0 ;;
  ry <- column reference_points 1 ;;
  qx <- column query_points 0 ;;
  qy <- column query_points 1 ;;
  ret (mk_figure (rx, ry) (qx, qy) (x, y)).

(** The four points step [i] of the loop appends: the reference point and
    the query point of pass [i], then the query point and the reference
    point of pass [i + 1]. *)
Definition path_step_points (a b : ndarray) (ris qis : list nat) (i : nat)
  : list point :=
  [nth (nth i ris 0%nat) (rows a) [];
   nth (nth i qis 0%nat) (rows b) [];
   nth (nth (i + 1) qis 0%nat) (rows b) [];
   nth (nth (i + 1) ris 0%nat) (rows a) []].

(** The points the path of a trace goes through, in order. *)
Definition path_points (a b : ndarray) (ris qis : list nat) : list point :=
  flat_map (path_step_points a b ris qis) (seq 0 (length ris - 1)).

(** Coordinate [c] of each point of a list. *)
Definition coordinates (c : nat) (ps : list point) : list Z :=
  map (fun p => nth c p 0) ps.

(** ** [generate_random_point_cloud] *)

(** [n] rows of [m] values each, cut from a flat list. *)
Fixpoint chunks (n m : nat) (l : list Z) : list point :=
  match n with
  | O => []
  | S n' => firstn m l :: chunks n' m (skipn m l)
  end.

(** [a.reshape(n, m)], in row-major order; [None] where numpy refuses
    because the sizes differ. *)
Definition reshape (a : ndarray) (n m : nat) : option ndarray :=
  if Nat.eqb (length (concat (rows a))) (n * m)
  then Some (mk_ndarray (dtype a) m (chunks n m (concat (rows a))))
  else None.

(** The errors of the generator: a failed [assert], or an exception of
    numpy. *)
Inductive generator_error : Type :=
| AssertionError
| NumpyError (e : exn).

Section Generator.

(** The state of numpy's module-level random generator, and the sampler
    [np.random.multivariate_normal], which reads and advances it and may
    raise.  Both belong to numpy and are parameters here. *)
Variable rng : Type.
Variable multivariate_normal :
  rng -> point -> ndarray -> nat -> exn + ndarray * rng.

Definition generate_random_point_cloud (g : rng) (number_of_points : nat)
           (mean : point) (cov : ndarray)
  : generator_error + ndarray * rng :=
  if (Nat.eqb (length mean) (shape0 cov)
      && Nat.eqb (length mean) (ncols cov))%bool
  then
    let dim := length mean in
    match multivariate_normal g mean cov number_of_points with
    | inl e => inl (NumpyError e)
    | inr (sample, g') =>
        match reshape sample number_of_points dim with
        | Some points => inr (points, g')
        | None => inl (NumpyError (ValueError "cannot reshape array"))
        end
    end
  else inl AssertionError.

End Generator.

(** What numpy promises of a sample the sampler returns: for a mean of
    length [dim] and a [dim x dim] covariance, [n] rows of [dim] columns. *)
Definition sampler_contract {rng : Type}
           (sampler : rng -> point -> ndarray -> nat -> exn + ndarray * rng)
  : Prop :=
  forall g mean cov n sample g',
    shape0 cov = length mean -> ncols cov = length mean ->
    sampler g mean cov n = inr (sample, g') ->
    wf_ndarray sample /\ shape0 sample = n /\ ncols sample = length mean.

(** The samples are arrays of floats. *)
Definition sampler_draws_floats {rng : Type}
           (sampler : rng -> point -> ndarray -> nat -> exn + ndarray * rng)
  : Prop :=
  forall g mean cov n sample g',
    sampler g mean cov n = inr (sample, g') -> dtype sample = float64.

(** A sampler for trying the statements: the generator is a stream of
    deviations, added to the mean entry by entry and consumed as they are
    used; like numpy's it raises for a mean without coordinates. *)
Definition stream_sampler (g : nat -> Z) (mean : point) (cov : ndarray)
           (n : nat) : exn + ndarray * (nat -> Z) :=
  match mean with
  | [] => inl (ValueError "mean must have at least one coordinate")
  | _ =>
      inr (mk_ndarray float64 (length mean)
             (map (fun i =>
                     map (fun c => nth c mean 0 + g (i * length mean + c)%nat)
                         (seq 0 (length mean)))
                  (seq 0 n)),
           fun k => g (k + n * length mean)%nat)
  end.

(** The deviations that make the zigzag clouds out of the means [(0, 0)]
    and [(8, 8)]. *)
Definition zigzag_stream (k : nat) : Z :=
  nth k [0; 0; 14; 1; 20; 0; 0; -5; 10; -6] 0.

(** What is left of that stream after the six entries of three reference
    points, and after the four entries of two query points. *)
Definition zigzag_stream_rest (k : nat) : Z := zigzag_stream (k + 3 * 2).
Definition zigzag_stream_end (k : nat) : Z := zigzag_stream_rest (k + 2 * 2).

(** The zigzag clouds as the stream sampler draws them: arrays of floats. *)
Definition zigzag_sample_reference : ndarray :=
  mk_ndarray float64 2 [[0; 0]; [14; 1]; [20; 0]].
Definition zigzag_sample_query : ndarray :=
  mk_ndarray float64 2 [[8; 3]; [18; 2]].


(** A reference cloud and a query cloud in the plane on which the
    alternation takes three passes. *)
Definition zigzag_reference : ndarray :=
  mk_ndarray int64 2 [[0; 0]; [14; 1]; [20; 0]].
Definition zigzag_query : ndarray := mk_ndarray int64 2 [[8; 3]; [18; 2]].


(** A cloud of a single point. *)
Definition lone_point : ndarray := mk_ndarray int64 2 [[5; 5]].

(** The parameters of the notebook's two clouds. *)
Definition notebook_reference_mean : point := [0; 0].
Definition notebook_reference_cov : ndarray := mk_ndarray int64 2 [[3; 0]; [0; 3]].
Definition notebook_query_mean : point := [8; 8].
Definition notebook_query_cov : ndarray := mk_ndarray int64 2 [[2; 0]; [0; 2]].

(** ** The embedding on small inputs *)

(** The scenario of the specification: one pass, the pair of index 0. *)
Example scenario_new :
  find_shortest_distance 1 scenario_reference scenario_query "new"
  = (Returned (RNew (sqrt 1) [0%nat] [0%nat]),
     [EvKDTree scenario_query; EvKDTree scenario_reference;
      EvQuery scenario_query [0; 0]; EvQuery scenario_reference [0; 1];
      EvNorm [0; -1]]).
Proof. reflexivity. Qed.

Example scenario_exhaustive :
  result (find_shortest_distance 0 scenario_reference scenario_query
                                 "exhaustive")
  = Returned (RExhaustive (Rmin (sqrt 1) (sqrt 1))).
Proof. reflexivity. Qed.

(** Two stored points at the same distance: the lower index is returned. *)
Example nearest_tie : nearest [[6]; [14]] [10] = 0%nat.
Proof. reflexivity. Qed.

(** Three passes on the stair of size 2. *)
Example stair_2_new :
  result (find_shortest_distance 3 (stair_reference 2) (stair_query 2) "new")
  = Returned (RNew (sqrt 4) [0; 1; 2]%nat [0; 1; 1]%nat).
Proof. reflexivity. Qed.

Example stair_2_still_running :
  result (find_shortest_distance 2 (stair_reference 2) (stair_query 2) "new")
  = OutOfFuel.
Proof. reflexivity. Qed.

(** The method is looked at after the first kd-tree has been built. *)
Example unknown_method :
  find_shortest_distance 0 scenario_reference scenario_query "fast"
  = (Raised (Exception "The selected method is incorrect! Only 'new' or 'exhaustive' method can be used."),
     [EvKDTree scenario_query]).
Proof. reflexivity. Qed.

(** ** Squared norms and distances *)

Lemma sqnorm_nonneg (v : point) : 0 <= sqnorm v.
Proof.
  induction v as [|a v IH]; simpl; [lia | nia].
Qed.

Lemma sqdist_nonneg (x y : point) : 0 <= sqdist x y.
Proof. apply sqnorm_nonneg. Qed.

Lemma sqdist_sym (x y : point) : sqdist x y = sqdist y x.
Proof.
  unfold sqdist. revert y.
  induction x as [|a x IH]; intros [|b y]; simpl; try reflexivity.
  rewrite (IH y). ring.
Qed.

Lemma distance_sqdist (x y : point) : distance x y = sqrt (IZR (sqdist x y)).
Proof. reflexivity. Qed.

Lemma distance_nonneg (x y : point) : (0 <= distance x y)%R.
Proof. rewrite distance_sqdist. apply sqrt_pos. Qed.

Lemma distance_sym (x y : point) : distance x y = distance y x.
Proof. rewrite !distance_sqdist, (sqdist_sym x y). reflexivity. Qed.

Lemma distance_le (x y x' y' : point) :
  sqdist x y <= sqdist x' y' -> (distance x y <= distance x' y')%R.
Proof.
  intros H. rewrite !distance_sqdist.
  apply sqrt_le_1_alt, IZR_le, H.
Qed.

Lemma scan_spec (x : point) (pts : list point) :
  forall best bestd i,
    (scan x best bestd i pts = best /\
     forall j p', nth_error pts j = Some p' -> bestd <= sqdist p' x)
    \/
    (exists k p,
        scan x best bestd i pts = (i + k)%nat /\
        nth_error pts k = Some p /\
        sqdist p x < bestd /\
        (forall j p', nth_error pts j = Some p' -> sqdist p x <= sqdist p' x) /\
        (forall j p', (j < k)%nat -> nth_error pts j = Some p' ->
                      sqdist p x < sqdist p' x)).
Proof.
  induction pts as [|p ps IH]; intros best bestd i; simpl.
  - left. split; [reflexivity|]. intros [|j] p'; discriminate.
  - destruct (Z.ltb_spec (sqdist p x) bestd) as [Hlt|Hge].
    + right.
      destruct (IH i (sqdist p x) (S i)) as [[-> Hall]|(k & p0 & -> & Hk & Hlt0 & Hmin & Hfirst)].
      * exists 0%nat, p. repeat split; auto.
        -- intros [|j] p' Hj; simpl in Hj.
           ++ injection Hj as <-. lia.
           ++ eauto.
        -- intros j p' Hj; lia.
      * exists (S k), p0. repeat split; auto; try lia.
        -- intros [|j] p' Hj; simpl in Hj.
           ++ injection Hj as <-. lia.
           ++ eauto.
        -- intros [|j] p' Hlt' Hj; simpl in Hj.
           ++ injection Hj as <-. lia.
           ++ apply (Hfirst j); [lia|assumption].
    + destruct (IH best bestd (S i)) as [[-> Hall]|(k & p0 & -> & Hk & Hlt0 & Hmin & Hfirst)].
      * left. split; [reflexivity|].
        intros [|j] p' Hj; simpl in Hj.
        -- injection Hj as <-. lia.
        -- eauto.
      * right. exists (S k), p0. repeat split; auto; try lia.
        -- intros [|j] p' Hj; simpl in Hj.
           ++ injection Hj as <-. lia.
           ++ eauto.
        -- intros [|j] p' Hlt' Hj; simpl in Hj.
           ++ injection Hj as <-. lia.
           ++ apply (Hfirst j); [lia|assumption].
Qed.

Lemma nearest_first_nearest (pts : list point) (x : point) :
  pts <> [] -> first_nearest pts x (nearest pts x).
Proof.
  destruct pts as [|p ps]; [congruence|intros _].
  unfold nearest, first_nearest.
  destruct (scan_spec x ps 0%nat (sqdist p x) 1%nat)
    as [[-> Hall]|(k & p0 & -> & Hk & Hlt0 & Hmin & Hfirst)].
  - exists p. repeat split; auto.
    + intros [|j] p' Hj; simpl in Hj.
      * injection Hj as <-. lia.
      * eauto.
    + intros j p' Hj; lia.
  - exists p0. repeat split; auto.
    + intros [|j] p' Hj; simpl in Hj.
      * injection Hj as <-. lia.
      * eauto.
    + intros [|j] p' Hlt' Hj; simpl in Hj.
      * injection Hj as <-. lia.
      * apply (Hfirst j); [lia|assumption].
Qed.

Lemma first_nearest_unique (pts : list point) (x : point) (i j : nat) :
  first_nearest pts x i -> first_nearest pts x j -> i = j.
Proof.
  intros (p & Hp & Hmin & Hfirst) (p' & Hp' & Hmin' & Hfirst').
  destruct (Nat.lt_trichotomy i j) as [Hlt|[Heq|Hgt]]; auto.
  - specialize (Hfirst' i p Hlt Hp). specialize (Hmin j p' Hp'). lia.
  - specialize (Hfirst j p' Hgt Hp'). specialize (Hmin' i p Hp). lia.
Qed.

Lemma nearest_lt (pts : list point) (x : point) :
  pts <> [] -> (nearest pts x < length pts)%nat.
Proof.
  intros H. destruct (nearest_first_nearest pts x H) as (p & Hp & _).
  apply nth_error_Some. congruence.
Qed.

Lemma nearest_le (pts : list point) (x : point) (j : nat) (p' : point) :
  nth_error pts j = Some p' ->
  sqdist (nth (nearest pts x) pts []) x <= sqdist p' x.
Proof.
  intros Hj.
  assert (Hne : pts <> []) by (intros ->; destruct j; discriminate).
  destruct (nearest_first_nearest pts x Hne) as (p & Hp & Hmin & _).
  rewrite (nth_error_nth _ _ _ Hp). eauto.
Qed.

Lemma nearest_lowest (pts : list point) (x : point) (j : nat) (p' : point) :
  (j < nearest pts x)%nat -> nth_error pts j = Some p' ->
  sqdist (nth (nearest pts x) pts []) x < sqdist p' x.
Proof.
  intros Hlt Hj.
  assert (Hne : pts <> []) by (intros ->; destruct j; discriminate).
  destruct (nearest_first_nearest pts x Hne) as (p & Hp & _ & Hfirst).
  rewrite (nth_error_nth _ _ _ Hp). eauto.
Qed.

Lemma nth_error_nth_lt (pts : list point) (i : nat) :
  (i < length pts)%nat -> nth_error pts i = Some (nth i pts []).
Proof. intros H. apply nth_error_nth'. exact H. Qed.

Section Alternation.

Variables A B : list point.
Hypothesis A_nonempty : A <> [].
Hypothesis B_nonempty : B <> [].

Lemma nn_query_lt r : (nn_query A B r < length B)%nat.
Proof. apply nearest_lt, B_nonempty. Qed.

Lemma next_anchor_lt r : (next_anchor A B r < length A)%nat.
Proof. apply nearest_lt, A_nonempty. Qed.

Lemma round_trip_nonneg r : 0 <= round_trip A B r.
Proof. apply sqdist_nonneg. Qed.

(** The nearest reference point of the query anchor is no farther from it
    than the current anchor is. *)
Lemma back_le r :
  (r < length A)%nat ->
  sqdist (nth (next_anchor A B r) A []) (nth (nn_query A B r) B [])
  <= round_trip A B r.
Proof.
  intros Hr. unfold round_trip, next_anchor.
  apply nearest_le with (j := r), nth_error_nth_lt, Hr.
Qed.

Lemma forth_le r :
  round_trip A B (next_anchor A B r)
  <= sqdist (nth (next_anchor A B r) A []) (nth (nn_query A B r) B []).
Proof.
  unfold round_trip at 1.
  rewrite sqdist_sym, (sqdist_sym (nth (next_anchor A B r) A [])).
  unfold nn_query at 1.
  apply nearest_le with (j := nn_query A B r), nth_error_nth_lt, nn_query_lt.
Qed.

Lemma round_trip_next r :
  (r < length A)%nat ->
  round_trip A B (next_anchor A B r) <= round_trip A B r.
Proof.
  intros Hr. pose proof (back_le r Hr). pose proof (forth_le r). lia.
Qed.

Lemma plateau_next r :
  (r < length A)%nat ->
  round_trip A B (next_anchor A B r) = round_trip A B r ->
  (next_anchor A B r <= r)%nat.
Proof.
  intros Hr Heq.
  pose proof (back_le r Hr) as Hb. pose proof (forth_le r) as Hf.
  destruct (Nat.le_gt_cases (next_anchor A B r) r) as [|Hlt]; [assumption|].
  exfalso.
  pose proof (nearest_lowest A (nth (nn_query A B r) B []) r (nth r A []) Hlt
                             (nth_error_nth_lt A r Hr)) as Hs.
  fold (next_anchor A B r) in Hs. unfold round_trip at 2 in Heq.
  lia.
Qed.

Lemma measure_nonneg r : 0 <= measure A B r.
Proof. unfold measure. pose proof (round_trip_nonneg r). nia. Qed.

Lemma measure_next r :
  (r < length A)%nat ->
  next_anchor A B r <> r ->
  measure A B (next_anchor A B r) < measure A B r.
Proof.
  intros Hr Hne. unfold measure.
  pose proof (round_trip_next r Hr) as Hle.
  pose proof (next_anchor_lt r) as Hlt.
  destruct (Z.eq_dec (round_trip A B (next_anchor A B r)) (round_trip A B r))
    as [Heq|Hneq].
  - pose proof (plateau_next r Hr Heq). rewrite Heq. lia.
  - nia.
Qed.

(** The loop reaches a fixed point: fuel above the measure is enough. *)
Lemma alternate_terminates fuel :
  forall r, (r < length A)%nat -> measure A B r < Z.of_nat fuel ->
            exists rs qs, alternate A B fuel r = Some (rs, qs).
Proof.
  induction fuel as [|fuel IH]; intros r Hr Hm.
  - pose proof (measure_nonneg r). lia.
  - simpl. destruct (Nat.eqb_spec (next_anchor A B r) r) as [Heq|Hne].
    + eauto.
    + destruct (IH (next_anchor A B r)) as (rs & qs & ->).
      * apply next_anchor_lt.
      * pose proof (measure_next r Hr Hne). lia.
      * eauto.
Qed.

Lemma alternate_mono fuel :
  forall r x fuel', alternate A B fuel r = Some x -> (fuel <= fuel')%nat ->
                    alternate A B fuel' r = Some x.
Proof.
  induction fuel as [|fuel IH]; intros r x fuel' H Hle; [discriminate|].
  destruct fuel' as [|fuel']; [lia|]. simpl in *.
  destruct (Nat.eqb (next_anchor A B r) r); [assumption|].
  destruct (alternate A B fuel (next_anchor A B r)) as [[rs qs]|] eqn:E;
    [|discriminate].
  rewrite (IH _ _ fuel' E); [assumption|lia].
Qed.

Lemma alternate_enough_fuel fuel :
  (enough_fuel A B <= fuel)%nat ->
  exists rs qs, alternate A B fuel 0 = Some (rs, qs).
Proof.
  intros Hle.
  destruct (alternate_terminates (enough_fuel A B) 0%nat) as (rs & qs & H).
  - destruct A; [congruence|simpl; lia].
  - unfold enough_fuel. pose proof (measure_nonneg 0). lia.
  - exists rs, qs. eapply alternate_mono; eauto.
Qed.

Lemma alternate_run fuel :
  forall r rs qs, alternate A B fuel r = Some (rs, qs) -> run A B r rs qs.
Proof.
  induction fuel as [|fuel IH]; intros r rs qs H; [discriminate|].
  simpl in H.
  destruct (Nat.eqb_spec (next_anchor A B r) r) as [Heq|Hne].
  - injection H as <- <-. constructor. assumption.
  - destruct (alternate A B fuel (next_anchor A B r)) as [[rs' qs']|] eqn:E;
      [|discriminate].
    injection H as <- <-. constructor; auto.
Qed.

End Alternation.

(** ** What a run of the loop leaves in the two lists *)

Lemma last_cons_nonempty (x : nat) (l : list nat) :
  l <> [] -> last (x :: l) 0%nat = last l 0%nat.
Proof. destruct l; [congruence|reflexivity]. Qed.

Section Run.

Variables A B : list point.

Lemma run_nonempty r rs qs : run A B r rs qs -> rs <> [] /\ qs <> [].
Proof. destruct 1; split; discriminate. Qed.

Lemma run_length r rs qs : run A B r rs qs -> length rs = length qs.
Proof. induction 1; simpl; congruence. Qed.

Lemma run_head r rs qs : run A B r rs qs -> nth 0 rs 0%nat = r.
Proof. destruct 1; reflexivity. Qed.

Lemma run_nth_query r rs qs :
  run A B r rs qs ->
  forall k, (k < length rs)%nat ->
            nth k qs 0%nat = nn_query A B (nth k rs 0%nat).
Proof.
  induction 1 as [r Hfix|r rs qs Hne Hrun IH]; intros [|k] Hk; simpl in *;
    try reflexivity; try lia.
  apply IH. lia.
Qed.

Lemma run_nth_next r rs qs :
  run A B r rs qs ->
  forall k, (S k < length rs)%nat ->
            nth (S k) rs 0%nat = next_anchor A B (nth k rs 0%nat) /\
            nth (S k) rs 0%nat <> nth k rs 0%nat.
Proof.
  induction 1 as [r Hfix|r rs qs Hne Hrun IH]; intros k Hk; simpl in Hk;
    [lia|].
  destruct k as [|k].
  - change (nth 1 (r :: rs) 0%nat) with (nth 0 rs 0%nat).
    rewrite (run_head _ _ _ Hrun). simpl. auto.
  - change (nth (S (S k)) (r :: rs) 0%nat) with (nth (S k) rs 0%nat).
    change (nth (S k) (r :: rs) 0%nat) with (nth k rs 0%nat).
    apply IH. lia.
Qed.

Lemma run_last r rs qs :
  run A B r rs qs ->
  next_anchor A B (last rs 0%nat) = last rs 0%nat /\
  last qs 0%nat = nn_query A B (last rs 0%nat).
Proof.
  induction 1 as [r Hfix|r rs qs Hne Hrun IH]; [simpl; auto|].
  destruct (run_nonempty _ _ _ Hrun) as [Hrs Hqs].
  rewrite !last_cons_nonempty by assumption. exact IH.
Qed.

Hypothesis A_nonempty : A <> [].
Hypothesis B_nonempty : B <> [].

Lemma run_in_range r rs qs :
  (r < length A)%nat -> run A B r rs qs ->
  forall k, (k < length rs)%nat -> (nth k rs 0%nat < length A)%nat.
Proof.
  intros Hr Hrun. revert Hr.
  induction Hrun as [r Hfix|r rs qs Hne Hrun IH]; intros Hr [|k] Hk;
    simpl in *; try assumption; try lia.
  apply IH; [apply next_anchor_lt, A_nonempty|lia].
Qed.

Lemma run_last_lt r rs qs :
  (r < length A)%nat -> run A B r rs qs ->
  (last rs 0%nat < length A)%nat /\ (last qs 0%nat < length B)%nat.
Proof.
  intros Hr Hrun. destruct (run_last _ _ _ Hrun) as [_ Hq].
  split.
  - destruct (run_nonempty _ _ _ Hrun) as [Hrs _].
    destruct (exists_last Hrs) as (rs' & x & Hx).
    rewrite Hx, last_last.
    pose proof (run_in_range r rs qs Hr Hrun (length rs')) as H.
    rewrite Hx, length_app, nth_middle in H. apply H. simpl. lia.
  - rewrite Hq. apply nn_query_lt, B_nonempty.
Qed.

(** Round-trip distances along the trace do not increase, and where two
    consecutive ones are equal the anchor index drops. *)
Lemma run_round_trip r rs qs :
  (r < length A)%nat -> run A B r rs qs ->
  forall k, (S k < length rs)%nat ->
    round_trip A B (nth (S k) rs 0%nat) <= round_trip A B (nth k rs 0%nat) /\
    (round_trip A B (nth (S k) rs 0%nat) = round_trip A B (nth k rs 0%nat) ->
     (nth (S k) rs 0%nat < nth k rs 0%nat)%nat).
Proof.
  intros Hr Hrun k Hk.
  destruct (run_nth_next _ _ _ Hrun k Hk) as [Hnext Hne].
  assert (Hin : (nth k rs 0%nat < length A)%nat)
    by (apply (run_in_range r rs qs Hr Hrun); lia).
  rewrite Hnext in *. split.
  - apply round_trip_next; assumption.
  - intros Heq.
    assert ((next_anchor A B (nth k rs 0%nat) <= nth k rs 0%nat)%nat)
      by (apply plateau_next; assumption).
    lia.
Qed.

Lemma run_round_trip_nth r rs qs :
  run A B r rs qs ->
  forall k, (k < length rs)%nat ->
    round_trip A B (nth k rs 0%nat)
    = sqdist (nth (nth k rs 0%nat) A []) (nth (nth k qs 0%nat) B []).
Proof.
  intros Hrun k Hk. rewrite (run_nth_query _ _ _ Hrun k Hk). reflexivity.
Qed.

End Run.

(** ** The program against the alternation *)

Lemma result_bind {X Y} (m : M X) (f : X -> M Y) :
  result (bind m f) =
  match result m with
  | Returned a => result (f a)
  | Raised e => Raised e
  | OutOfFuel => OutOfFuel
  end.
Proof.
  destruct m as [[a|e|] l]; simpl; try reflexivity.
  destruct (f a); reflexivity.
Qed.

Lemma last_item_snoc (l : list nat) (x : nat) : last_item (l ++ [x]) = ret x.
Proof.
  unfold last_item. rewrite last_last.
  destruct l; reflexivity.
Qed.

Lemma last_item_nonempty (l : list nat) :
  l <> [] -> last_item l = ret (last l 0%nat).
Proof. destruct l; [congruence|reflexivity]. Qed.

Lemma getitem_lt (a : ndarray) (i : nat) :
  (i < shape0 a)%nat -> getitem a i = ret (nth i (rows a) []).
Proof.
  intros H. unfold getitem. rewrite (nth_error_nth_lt _ _ H). reflexivity.
Qed.

Lemma wf_nth (a : ndarray) (i : nat) :
  wf_ndarray a -> (i < shape0 a)%nat -> length (nth i (rows a) []) = ncols a.
Proof.
  intros Hwf Hi. unfold wf_ndarray in Hwf. rewrite Forall_forall in Hwf.
  apply Hwf, nth_In, Hi.
Qed.

Lemma query_ok (t : KDTree) (x : point) :
  length x = ncols (data t) ->
  query t x = (Returned (nn_answer t x), [EvQuery (data t) x]).
Proof.
  intros H. unfold query. rewrite H, Nat.eqb_refl. reflexivity.
Qed.

Lemma query_mismatch (t : KDTree) (x : point) :
  length x <> ncols (data t) ->
  query t x = (Raised DimensionMismatchError, []).
Proof.
  intros H. unfold query.
  destruct (Nat.eqb_spec (length x) (ncols (data t))); [contradiction|].
  reflexivity.
Qed.

Lemma result_KDTree_new (a : ndarray) :
  result (KDTree_new a) = Returned (mk_KDTree a).
Proof. reflexivity. Qed.

(** *** The subtraction of the last statement *)

Lemma wrap_int64_fits (z : Z) : fits_int64 z -> wrap_int64 z = z.
Proof.
  unfold fits_int64, wrap_int64. intros H.
  rewrite Z.mod_small by lia. lia.
Qed.

(** Wrapping never takes a value away from zero. *)
Lemma wrap_int64_square (z : Z) : wrap_int64 z * wrap_int64 z <= z * z.
Proof.
  unfold wrap_int64.
  pose proof (Z.mod_pos_bound (z + 2 ^ 63) (2 ^ 64) ltac:(lia)) as Hb.
  pose proof (Z.div_mod (z + 2 ^ 63) (2 ^ 64) ltac:(lia)) as Hd.
  set (m := (z + 2 ^ 63) mod 2 ^ 64) in *.
  set (q := (z + 2 ^ 63) / 2 ^ 64) in *.
  assert (Hz : z = 2 ^ 64 * q + (m - 2 ^ 63)) by lia.
  destruct (Z.eq_dec q 0) as [->|Hq]; [rewrite Hz; lia|].
  assert (Hw : Z.abs (m - 2 ^ 63) <= 2 ^ 63) by lia.
  assert (Hbig : 2 ^ 63 <= Z.abs z) by lia.
  rewrite <- (Z.abs_square (m - 2 ^ 63)), <- (Z.abs_square z).
  apply Z.square_le_mono_nonneg; lia.
Qed.

Lemma sqnorm_wrap_le (v : point) :
  sqnorm (map wrap_int64 v) <= sqnorm v.
Proof.
  induction v as [|a v IH]; simpl; [lia|].
  pose proof (wrap_int64_square a). lia.
Qed.

Lemma map_wrap_fits (v : point) :
  Forall fits_int64 v -> map wrap_int64 v = v.
Proof.
  induction 1 as [|a v Ha Hv IH]; simpl; [reflexivity|].
  rewrite (wrap_int64_fits a Ha), IH. reflexivity.
Qed.

(** The norm the program takes is never above the Euclidean distance. *)
Lemma norm_array_sub_le (s : scalar_type) (x y : point) :
  (norm (array_sub s x y) <= distance x y)%R.
Proof.
  unfold distance, norm. apply sqrt_le_1_alt, IZR_le.
  destruct s; cbn [array_sub]; [apply sqnorm_wrap_le|lia].
Qed.

Lemma array_sub_exact (a b : ndarray) (p q : point) :
  no_wraparound a b -> In p (rows a) -> In q (rows b) ->
  array_sub (result_dtype (dtype a) (dtype b)) p q = vsub p q.
Proof.
  intros Hno Hp Hq. unfold no_wraparound in Hno.
  destruct (dtype a), (dtype b); cbn [result_dtype array_sub];
    try reflexivity.
  apply map_wrap_fits, Hno; auto.
Qed.

Lemma fits_int64b_true (z : Z) : fits_int64b z = true -> fits_int64 z.
Proof.
  unfold fits_int64b, fits_int64. rewrite andb_true_iff.
  intros [H1 H2]. apply Z.leb_le in H1. apply Z.ltb_lt in H2. lia.
Qed.

Lemma no_wraparoundb_true (a b : ndarray) :
  no_wraparoundb a b = true -> no_wraparound a b.
Proof.
  unfold no_wraparoundb, no_wraparound. intros H Ha Hb p q Hp Hq.
  rewrite Ha, Hb in H. cbn [result_dtype] in H.
  rewrite forallb_forall in H. specialize (H p Hp).
  rewrite forallb_forall in H. specialize (H q Hq).
  rewrite forallb_forall in H. apply Forall_forall.
  intros z Hz. apply fits_int64b_true, H, Hz.
Qed.

Lemma returned_distance_le (a b : ndarray) (ris qis : list nat) :
  (returned_distance a b ris qis
   <= distance (nth (last ris 0%nat) (rows a) [])
               (nth (last qis 0%nat) (rows b) []))%R.
Proof. apply norm_array_sub_le. Qed.

Lemma returned_distance_exact (a b : ndarray) (ris qis : list nat) :
  no_wraparound a b ->
  (last ris 0 < shape0 a)%nat -> (last qis 0 < shape0 b)%nat ->
  returned_distance a b ris qis
  = distance (nth (last ris 0%nat) (rows a) [])
             (nth (last qis 0%nat) (rows b) []).
Proof.
  intros Hno Hr Hq. unfold returned_distance, distance.
  rewrite (array_sub_exact a b) by (auto using nth_In).
  reflexivity.
Qed.

Lemma rows_nonempty (a : ndarray) : (0 < shape0 a)%nat -> rows a <> [].
Proof.
  unfold shape0. destruct (rows a); simpl; [lia|discriminate].
Qed.

Lemma shape_check (a b : ndarray) :
  (0 < shape0 a)%nat -> (0 < shape0 b)%nat ->
  (Nat.eqb (shape0 a) 0 || Nat.eqb (shape0 b) 0)%bool = false.
Proof.
  intros Ha Hb.
  destruct (Nat.eqb_spec (shape0 a) 0); [lia|].
  destruct (Nat.eqb_spec (shape0 b) 0); [lia|].
  reflexivity.
Qed.

Section Program.

Variables reference_points query_points : ndarray.

Let A := rows reference_points.
Let B := rows query_points.

Hypothesis wf_reference : wf_ndarray reference_points.
Hypothesis wf_query : wf_ndarray query_points.
Hypothesis same_dim : ncols reference_points = ncols query_points.
Hypothesis reference_nonempty : (0 < shape0 reference_points)%nat.
Hypothesis query_nonempty : (0 < shape0 query_points)%nat.

Lemma A_nonempty : A <> [].
Proof. exact (rows_nonempty _ reference_nonempty). Qed.

Lemma B_nonempty : B <> [].
Proof. exact (rows_nonempty _ query_nonempty). Qed.

(** One pass from anchor [r]: two lookups, then break or append. *)
Lemma loop_body_anchor (ris0 qis0 : list nat) (r : nat) :
  (r < shape0 reference_points)%nat ->
  loop_body reference_points query_points
            (mk_KDTree reference_points) (mk_KDTree query_points)
            (ris0 ++ [r], qis0)
  = (Returned
       (if Nat.eqb (next_anchor A B r) r
        then Break (ris0 ++ [r], qis0 ++ [nn_query A B r])
        else Continue ((ris0 ++ [r]) ++ [next_anchor A B r],
                       qis0 ++ [nn_query A B r])),
     [EvQuery query_points (nth r A []);
      EvQuery reference_points (nth (nn_query A B r) B [])]).
Proof.
  intros Hr. unfold loop_body.
  rewrite last_item_snoc. cbn [bind ret app].
  rewrite (getitem_lt _ _ Hr). cbn [bind ret app].
  rewrite query_ok
    by (simpl; rewrite <- same_dim; apply wf_nth; assumption).
  unfold nn_answer at 1. cbn [bind ret app data].
  change (nearest (rows query_points) (nth r (rows reference_points) []))
    with (nn_query A B r).
  rewrite last_item_snoc. cbn [bind ret app].
  assert (Hq : (nn_query A B r < shape0 query_points)%nat)
    by (apply nn_query_lt, B_nonempty).
  rewrite (getitem_lt _ _ Hq).
  cbn [bind ret app].
  rewrite query_ok
    by (simpl; rewrite same_dim; apply wf_nth; assumption).
  unfold nn_answer at 1. cbn [bind ret app data].
  change (nearest (rows reference_points)
                  (nth (nn_query A B r) (rows query_points) []))
    with (next_anchor A B r).
  destruct (Nat.eqb (next_anchor A B r) r); reflexivity.
Qed.

Lemma while_1_alternate (fuel : nat) :
  forall ris0 qis0 r,
    (r < shape0 reference_points)%nat ->
    result (while_1 fuel
              (loop_body reference_points query_points
                         (mk_KDTree reference_points) (mk_KDTree query_points))
              (ris0 ++ [r], qis0))
    = match alternate A B fuel r with
      | Some (rs, qs) => Returned (ris0 ++ rs, qis0 ++ qs)
      | None => OutOfFuel
      end.
Proof.
  induction fuel as [|fuel IH]; intros ris0 qis0 r Hr; [reflexivity|].
  cbn [while_1 alternate].
  rewrite result_bind, (loop_body_anchor _ _ _ Hr).
  cbn [result fst].
  destruct (Nat.eqb (next_anchor A B r) r); [reflexivity|].
  rewrite IH by (apply next_anchor_lt, A_nonempty).
  destruct (alternate A B fuel (next_anchor A B r)) as [[rs qs]|];
    [|reflexivity].
  rewrite <- !app_assoc. reflexivity.
Qed.

(** Method ['new'] returns what the alternation from index 0 leaves, with
    the norm its last statement takes for the last pair. *)
Lemma new_result (fuel : nat) :
  result (find_shortest_distance fuel reference_points query_points "new")
  = match alternate A B fuel 0 with
    | Some (rs, qs) =>
        Returned (RNew (returned_distance reference_points query_points rs qs)
                       rs qs)
    | None => OutOfFuel
    end.
Proof.
  unfold find_shortest_distance.
  rewrite (shape_check _ _ reference_nonempty query_nonempty).
  rewrite result_bind, result_KDTree_new.
  cbn [String.eqb Ascii.eqb Bool.eqb].
  rewrite result_bind, result_KDTree_new.
  rewrite result_bind.
  pose proof (while_1_alternate fuel [] [] 0%nat reference_nonempty) as Hw.
  cbn [app] in Hw. rewrite Hw. clear Hw.
  destruct (alternate A B fuel 0) as [[rs qs]|] eqn:Ealt; [|reflexivity].
  pose proof (alternate_run A B fuel 0%nat rs qs Ealt) as Hrun.
  destruct (run_nonempty _ _ _ _ _ Hrun) as [Hrs Hqs].
  destruct (run_last_lt A B A_nonempty B_nonempty 0%nat rs qs
                        reference_nonempty Hrun) as [Hlr Hlq].
  rewrite (last_item_nonempty _ Hrs). cbn [bind ret app].
  rewrite (last_item_nonempty _ Hqs). cbn [bind ret app].
  rewrite (getitem_lt reference_points _ Hlr). cbn [bind ret app].
  rewrite (getitem_lt query_points _ Hlq).
  reflexivity.
Qed.

End Program.

(** ** The exhaustive method *)

Lemma fold_left_Rmin_le_init (l : list R) (d : R) :
  (fold_left Rmin l d <= d)%R.
Proof.
  revert d. induction l as [|x l IH]; intros d; simpl.
  - apply Rle_refl.
  - eapply Rle_trans; [apply IH|apply Rmin_l].
Qed.

Lemma fold_left_Rmin_le_In (l : list R) (d x : R) :
  In x l -> (fold_left Rmin l d <= x)%R.
Proof.
  revert d. induction l as [|y l IH]; intros d; simpl; [contradiction|].
  intros [->|Hin].
  - eapply Rle_trans; [apply fold_left_Rmin_le_init|apply Rmin_r].
  - apply IH, Hin.
Qed.

Lemma fold_left_Rmin_In (l : list R) (d : R) :
  In (fold_left Rmin l d) (d :: l).
Proof.
  revert d. induction l as [|y l IH]; intros d; simpl; [auto|].
  destruct (IH (Rmin d y)) as [H|H].
  - unfold Rmin in H at 1. destruct (Rle_dec d y); auto.
  - auto.
Qed.

Lemma map_fst_nn_answer (b : ndarray) (xs : list point) :
  map fst (map (nn_answer (mk_KDTree b)) xs) = nn_distances xs (rows b).
Proof.
  unfold nn_distances. rewrite map_map. reflexivity.
Qed.

Section Exhaustive.

Variables reference_points query_points : ndarray.

Let A := rows reference_points.
Let B := rows query_points.

Hypothesis same_dim : ncols reference_points = ncols query_points.
Hypothesis reference_nonempty : (0 < shape0 reference_points)%nat.
Hypothesis query_nonempty : (0 < shape0 query_points)%nat.

Lemma exhaustive_result (fuel : nat) :
  result (find_shortest_distance fuel reference_points query_points
                                 "exhaustive")
  = Returned (RExhaustive (fold_left Rmin (tl (nn_distances A B))
                                     (hd 0%R (nn_distances A B)))).
Proof.
  unfold find_shortest_distance.
  rewrite (shape_check _ _ reference_nonempty query_nonempty).
  rewrite result_bind, result_KDTree_new.
  cbn [String.eqb Ascii.eqb Bool.eqb].
  rewrite result_bind. unfold query_array. cbn [data].
  rewrite same_dim, Nat.eqb_refl.
  cbn [emit bind ret app result fst]. rewrite map_fst_nn_answer.
  fold A B. unfold shape0 in reference_nonempty. fold A in reference_nonempty.
  destruct A as [|a A']; [simpl in reference_nonempty; lia|].
  reflexivity.
Qed.

(** The minimum of the nearest-neighbour distances is the minimum over all
    pairs. *)
Lemma exhaustive_minimum (fuel : nat) :
  exists d,
    result (find_shortest_distance fuel reference_points query_points
                                   "exhaustive")
    = Returned (RExhaustive d) /\
    (0 <= d)%R /\
    (forall i j a b, nth_error A i = Some a -> nth_error B j = Some b ->
                     (d <= distance a b)%R) /\
    (exists i j a b, nth_error A i = Some a /\ nth_error B j = Some b /\
                     d = distance a b).
Proof.
  eexists. split; [apply exhaustive_result|].
  assert (HB : B <> []) by exact (rows_nonempty _ query_nonempty).
  assert (HA : A <> []) by exact (rows_nonempty _ reference_nonempty).
  set (ds := nn_distances A B).
  assert (Hin : In (fold_left Rmin (tl ds) (hd 0%R ds)) ds).
  { subst ds. destruct A as [|a A']; [congruence|].
    apply fold_left_Rmin_In. }
  assert (Hle : forall x, In x ds -> (fold_left Rmin (tl ds) (hd 0%R ds) <= x)%R).
  { subst ds. destruct A as [|a A']; [congruence|].
    cbn [nn_distances map hd tl]. intros x [<-|Hx].
    - apply fold_left_Rmin_le_init.
    - apply fold_left_Rmin_le_In, Hx. }
  split; [|split].
  - subst ds. unfold nn_distances in *. apply in_map_iff in Hin.
    destruct Hin as (a & <- & _). apply distance_nonneg.
  - intros i j a b Ha Hb.
    eapply Rle_trans.
    + apply Hle. subst ds. unfold nn_distances.
      apply in_map, (nth_error_In _ _ Ha).
    + rewrite (distance_sym a b). apply distance_le.
      apply nearest_le with (j := j), Hb.
  - subst ds. unfold nn_distances in *. apply in_map_iff in Hin.
    destruct Hin as (a & Heq & Ha).
    destruct (In_nth_error _ _ Ha) as [i Hi].
    exists i, (nearest B a), a, (nth (nearest B a) B []).
    repeat split; auto.
    + apply nth_error_nth_lt, nearest_lt, HB.
    + rewrite <- Heq. apply distance_sym.
Qed.

End Exhaustive.

(** ** Method ['new'] on valid input *)

Section NewMethod.

Variables reference_points query_points : ndarray.

Let A := rows reference_points.
Let B := rows query_points.

Hypothesis wf_reference : wf_ndarray reference_points.
Hypothesis wf_query : wf_ndarray query_points.
Hypothesis same_dim : ncols reference_points = ncols query_points.
Hypothesis reference_nonempty : (0 < shape0 reference_points)%nat.
Hypothesis query_nonempty : (0 < shape0 query_points)%nat.

(** Whatever the fuel, a returned triple is a run of the alternation from
    index 0 together with the distance of its last pair. *)
Lemma new_returned (fuel : nat) (d : R) (ris qis : list nat) :
  result (find_shortest_distance fuel reference_points query_points "new")
  = Returned (RNew d ris qis) ->
  run A B 0 ris qis /\
  d = returned_distance reference_points query_points ris qis.
Proof.
  rewrite new_result by assumption. fold A B.
  destruct (alternate A B fuel 0) as [[rs qs]|] eqn:E; [|discriminate].
  intros H. injection H as <- <- <-.
  split; [eapply alternate_run; eassumption|reflexivity].
Qed.

(** With enough fuel the triple is returned. *)
Lemma new_returns (fuel : nat) :
  (enough_fuel A B <= fuel)%nat ->
  exists d ris qis,
    result (find_shortest_distance fuel reference_points query_points "new")
    = Returned (RNew d ris qis).
Proof.
  intros Hfuel. rewrite new_result by assumption. fold A B.
  destruct (alternate_enough_fuel A B (rows_nonempty _ reference_nonempty)
                                  (rows_nonempty _ query_nonempty) fuel Hfuel)
    as (rs & qs & ->).
  eauto.
Qed.

End NewMethod.

Lemma wf_ndarrayb_true (a : ndarray) : wf_ndarrayb a = true -> wf_ndarray a.
Proof.
  unfold wf_ndarrayb, wf_ndarray. rewrite forallb_forall, Forall_forall.
  intros H p Hp. apply Nat.eqb_eq, H, Hp.
Qed.

Lemma valid_inputb_true (a b : ndarray) :
  valid_inputb a b = true -> valid_input a b.
Proof.
  unfold valid_inputb, valid_input. rewrite !andb_true_iff.
  intros [[[[Ha Hb] Hd] Hna] Hnb].
  repeat split; auto using wf_ndarrayb_true.
  - apply Nat.eqb_eq, Hd.
  - apply Nat.ltb_lt, Hna.
  - apply Nat.ltb_lt, Hnb.
Qed.

Lemma pair_distance_round_trip (a b : ndarray) (r : nat) (ris qis : list nat)
      (k : nat) :
  run (rows a) (rows b) r ris qis -> (k < length ris)%nat ->
  pair_distance a b ris qis k
  = sqrt (IZR (round_trip (rows a) (rows b) (nth k ris 0%nat))).
Proof.
  intros Hrun Hk. unfold pair_distance.
  rewrite distance_sqdist, (run_round_trip_nth _ _ _ _ _ Hrun k Hk).
  reflexivity.
Qed.

Lemma pair_distance_step (a b : ndarray) (ris qis : list nat) (k : nat) :
  (0 < shape0 a)%nat -> (0 < shape0 b)%nat ->
  run (rows a) (rows b) 0 ris qis -> (S k < length ris)%nat ->
  (pair_distance a b ris qis (S k) <= pair_distance a b ris qis k)%R /\
  (pair_distance a b ris qis (S k) = pair_distance a b ris qis k ->
   (nth (S k) ris 0 < nth k ris 0)%nat).
Proof.
  intros Ha Hb Hrun Hk.
  destruct (run_round_trip _ _ (rows_nonempty _ Ha) (rows_nonempty _ Hb)
                           0%nat ris qis Ha Hrun k Hk) as [Hle Hplateau].
  rewrite !(pair_distance_round_trip a b 0 ris qis) by (assumption || lia).
  split.
  - apply sqrt_le_1_alt, IZR_le, Hle.
  - intros Heq. apply Hplateau, eq_IZR, sqrt_inj; auto using IZR_le, round_trip_nonneg.
Qed.

(** ** Clouds of different dimensionality *)

Lemma loop_body_mismatch (a b : ndarray) :
  wf_ndarray a -> (0 < shape0 a)%nat -> ncols a <> ncols b ->
  loop_body a b (mk_KDTree a) (mk_KDTree b) ([0%nat], [])
  = (Raised DimensionMismatchError, []).
Proof.
  intros Hwf Hn Hdim. unfold loop_body.
  cbn [last_item last bind ret app].
  rewrite (getitem_lt _ _ Hn). cbn [bind ret app].
  rewrite query_mismatch; [reflexivity|].
  cbn [data]. rewrite (wf_nth _ _ Hwf Hn). exact Hdim.
Qed.

Lemma new_mismatch (fuel : nat) (a b : ndarray) :
  wf_ndarray a -> (0 < shape0 a)%nat -> (0 < shape0 b)%nat ->
  ncols a <> ncols b ->
  find_shortest_distance (S fuel) a b "new"
  = (Raised DimensionMismatchError, [EvKDTree b; EvKDTree a]).
Proof.
  intros Hwf Ha Hb Hdim. unfold find_shortest_distance.
  rewrite (shape_check _ _ Ha Hb).
  cbn [KDTree_new emit bind ret app String.eqb Ascii.eqb Bool.eqb while_1].
  rewrite (loop_body_mismatch a b Hwf Ha Hdim). reflexivity.
Qed.

Lemma exhaustive_mismatch (fuel : nat) (a b : ndarray) :
  (0 < shape0 a)%nat -> (0 < shape0 b)%nat -> ncols a <> ncols b ->
  find_shortest_distance fuel a b "exhaustive"
  = (Raised DimensionMismatchError, [EvKDTree b]).
Proof.
  intros Ha Hb Hdim. unfold find_shortest_distance.
  rewrite (shape_check _ _ Ha Hb).
  cbn [KDTree_new emit bind ret app String.eqb Ascii.eqb Bool.eqb].
  unfold query_array. cbn [data].
  destruct (Nat.eqb_spec (ncols a) (ncols b)); [contradiction|].
  reflexivity.
Qed.

Lemma never_nc_bind {X Y} (m : M X) (f : X -> M Y) :
  never_nonconvergence m -> (forall x, never_nonconvergence (f x)) ->
  never_nonconvergence (bind m f).
Proof.
  unfold never_nonconvergence. intros Hm Hf. rewrite result_bind.
  destruct (result m) as [x|e|].
  - apply Hf.
  - intros H. apply Hm. injection H as ->. reflexivity.
  - intros H. discriminate H.
Qed.

Lemma never_nc_ret {X} (x : X) : never_nonconvergence (ret x).
Proof. nc_now. Qed.

Lemma never_nc_last_item (l : list nat) : never_nonconvergence (last_item l).
Proof. destruct l; nc_now. Qed.

Lemma never_nc_getitem (a : ndarray) (i : nat) :
  never_nonconvergence (getitem a i).
Proof. unfold getitem. destruct (nth_error (rows a) i); nc_now. Qed.

Lemma never_nc_query (t : KDTree) (x : point) :
  never_nonconvergence (query t x).
Proof.
  unfold query. destruct (Nat.eqb (length x) (ncols (data t))); nc_now.
Qed.

Lemma never_nc_amin (ds : list R) : never_nonconvergence (amin ds).
Proof. destruct ds; nc_now. Qed.

Lemma never_nc_loop_body (a b : ndarray) (rt qt : KDTree) (st : trace) :
  never_nonconvergence (loop_body a b rt qt st).
Proof.
  destruct st as [ris qis]. unfold loop_body.
  repeat (apply never_nc_bind;
          [first [apply never_nc_last_item | apply never_nc_getitem
                 | apply never_nc_query]
          | let x := fresh in intros x; try (destruct x as [? ?])]).
  match goal with |- context [if ?c then _ else _] => destruct c end;
    apply never_nc_ret.
Qed.

Lemma never_nc_while_1 (fuel : nat) (a b : ndarray) (rt qt : KDTree) :
  forall st, never_nonconvergence (while_1 fuel (loop_body a b rt qt) st).
Proof.
  induction fuel as [|fuel IH]; intros st; [nc_now|].
  cbn [while_1]. apply never_nc_bind; [apply never_nc_loop_body|].
  intros [s|s]; [apply never_nc_ret|apply IH].
Qed.

Lemma nth_error_map_seq {X} (f : nat -> X) (n j : nat) :
  nth_error (map f (seq 0 n)) j = if Nat.ltb j n then Some (f j) else None.
Proof.
  rewrite nth_error_map, nth_error_seq.
  destruct (Nat.ltb j n); reflexivity.
Qed.

Lemma nth_error_map_seq_Some {X} (f : nat -> X) (n j : nat) (x : X) :
  nth_error (map f (seq 0 n)) j = Some x -> (j < n)%nat /\ x = f j.
Proof.
  rewrite nth_error_map_seq.
  destruct (Nat.ltb_spec j n) as [Hlt|Hge]; [|discriminate].
  intros E. injection E as <-. auto.
Qed.

Lemma sqdist_1 (u v : Z) : sqdist [u] [v] = (u - v) * (u - v).
Proof. unfold sqdist. simpl. ring. Qed.

Lemma square_le (x y : Z) : 0 <= x <= y -> x * x <= y * y.
Proof. nia. Qed.

Lemma square_lt (x y : Z) : 0 <= x < y -> x * x < y * y.
Proof. nia. Qed.

Lemma stair_pos_diff (k t u : nat) :
  stair_pos k u - stair_pos k t
  = (Z.of_nat u - Z.of_nat t) * (4 * Z.of_nat k + 1 - Z.of_nat u - Z.of_nat t).
Proof. unfold stair_pos. ring. Qed.

Lemma stair_nn_query (k i : nat) :
  (i < k)%nat ->
  nn_query (rows (stair_reference k)) (rows (stair_query k)) i = i.
Proof.
  intros Hi. unfold nn_query.
  assert (Hx : nth i (rows (stair_reference k)) [] = [stair_pos k (2 * i)]).
  { apply nth_error_nth. cbn [stair_reference rows].
    rewrite nth_error_map_seq.
    destruct (Nat.ltb_spec i (S k)); [reflexivity|lia]. }
  rewrite Hx.
  apply (first_nearest_unique (rows (stair_query k)) [stair_pos k (2 * i)]).
  - apply nearest_first_nearest. cbn [stair_query rows].
    destruct k; [lia|discriminate].
  - exists [stair_pos k (2 * i + 1)]. cbn [stair_query rows].
    split; [|split].
    + rewrite nth_error_map_seq.
      destruct (Nat.ltb_spec i k); [reflexivity|lia].
    + intros j p' Hj. apply nth_error_map_seq_Some in Hj.
      destruct Hj as [Hj ->]. rewrite !sqdist_1.
      pose proof (stair_pos_diff k (2 * i) (2 * i + 1)) as D0.
      pose proof (stair_pos_diff k (2 * i) (2 * j + 1)) as D1.
      destruct (Nat.le_gt_cases i j) as [Hij|Hji].
      * apply square_le. nia.
      * replace ((stair_pos k (2 * j + 1) - stair_pos k (2 * i))
                 * (stair_pos k (2 * j + 1) - stair_pos k (2 * i)))
          with ((stair_pos k (2 * i) - stair_pos k (2 * j + 1))
                * (stair_pos k (2 * i) - stair_pos k (2 * j + 1))) by ring.
        apply square_le. nia.
    + intros j p' Hji Hj. apply nth_error_map_seq_Some in Hj.
      destruct Hj as [Hj ->]. rewrite !sqdist_1.
      pose proof (stair_pos_diff k (2 * i) (2 * i + 1)) as D0.
      pose proof (stair_pos_diff k (2 * i) (2 * j + 1)) as D1.
      replace ((stair_pos k (2 * j + 1) - stair_pos k (2 * i))
               * (stair_pos k (2 * j + 1) - stair_pos k (2 * i)))
        with ((stair_pos k (2 * i) - stair_pos k (2 * j + 1))
              * (stair_pos k (2 * i) - stair_pos k (2 * j + 1))) by ring.
      apply square_lt. nia.
Qed.

Lemma stair_next_anchor (k i : nat) :
  (i < k)%nat ->
  next_anchor (rows (stair_reference k)) (rows (stair_query k)) i = S i.
Proof.
  intros Hi. unfold next_anchor. rewrite (stair_nn_query k i Hi).
  assert (Hx : nth i (rows (stair_query k)) [] = [stair_pos k (2 * i + 1)]).
  { apply nth_error_nth. cbn [stair_query rows].
    rewrite nth_error_map_seq.
    destruct (Nat.ltb_spec i k); [reflexivity|lia]. }
  rewrite Hx.
  apply (first_nearest_unique (rows (stair_reference k))
                              [stair_pos k (2 * i + 1)]).
  - apply nearest_first_nearest. discriminate.
  - exists [stair_pos k (2 * S i)]. cbn [stair_reference rows].
    split; [|split].
    + rewrite nth_error_map_seq.
      destruct (Nat.ltb_spec (S i) (S k)); [reflexivity|lia].
    + intros j p' Hj. apply nth_error_map_seq_Some in Hj.
      destruct Hj as [Hj ->]. rewrite !sqdist_1.
      pose proof (stair_pos_diff k (2 * i + 1) (2 * S i)) as D0.
      pose proof (stair_pos_diff k (2 * i + 1) (2 * j)) as D1.
      destruct (Nat.le_gt_cases (S i) j) as [Hij|Hji].
      * apply square_le. nia.
      * replace ((stair_pos k (2 * j) - stair_pos k (2 * i + 1))
                 * (stair_pos k (2 * j) - stair_pos k (2 * i + 1)))
          with ((stair_pos k (2 * i + 1) - stair_pos k (2 * j))
                * (stair_pos k (2 * i + 1) - stair_pos k (2 * j))) by ring.
        apply square_le. nia.
    + intros j p' Hji Hj. apply nth_error_map_seq_Some in Hj.
      destruct Hj as [Hj ->]. rewrite !sqdist_1.
      pose proof (stair_pos_diff k (2 * i + 1) (2 * S i)) as D0.
      pose proof (stair_pos_diff k (2 * i + 1) (2 * j)) as D1.
      replace ((stair_pos k (2 * j) - stair_pos k (2 * i + 1))
               * (stair_pos k (2 * j) - stair_pos k (2 * i + 1)))
        with ((stair_pos k (2 * i + 1) - stair_pos k (2 * j))
              * (stair_pos k (2 * i + 1) - stair_pos k (2 * j))) by ring.
      apply square_lt. nia.
Qed.

(** The first [k] passes over the stair of size [k] all move on. *)
Lemma stair_alternate (k fuel : nat) :
  forall r, (r + fuel <= k)%nat ->
    alternate (rows (stair_reference k)) (rows (stair_query k)) fuel r = None.
Proof.
  induction fuel as [|fuel IH]; intros r Hr; [reflexivity|].
  cbn [alternate]. rewrite (stair_next_anchor k r) by lia.
  destruct (Nat.eqb_spec (S r) r); [lia|].
  rewrite IH by lia. reflexivity.
Qed.

Lemma stair_valid (k : nat) :
  valid_input (stair_reference (S k)) (stair_query (S k)).
Proof.
  unfold valid_input, wf_ndarray, shape0.
  cbn [stair_reference stair_query rows ncols].
  rewrite !length_map, !length_seq.
  repeat split; try lia;
    apply Forall_forall; intros p Hp; apply in_map_iff in Hp;
    destruct Hp as (i & <- & _); reflexivity.
Qed.

Lemma stair_out_of_fuel (cap : nat) :
  result (find_shortest_distance cap (stair_reference (S cap))
                                 (stair_query (S cap)) "new")
  = OutOfFuel.
Proof.
  destruct (stair_valid cap) as (Hwa & Hwb & Hdim & Hna & Hnb).
  rewrite new_result by assumption.
  rewrite stair_alternate by lia. reflexivity.
Qed.

Lemma find_shortest_distance_never_nc
      (fuel : nat) (reference_points query_points : ndarray) (method : string) :
  never_nonconvergence
    (find_shortest_distance fuel reference_points query_points method).
Proof.
  unfold find_shortest_distance.
  destruct (_ || _)%bool; [nc_now|].
  apply never_nc_bind; [nc_now|intros qt].
  destruct (String.eqb method "new").
  - apply never_nc_bind; [nc_now|intros rt].
    apply never_nc_bind; [apply never_nc_while_1|intros [ris qis]].
    repeat (apply never_nc_bind;
            [first [apply never_nc_last_item | apply never_nc_getitem
                   | nc_now]
            | intros ?]).
    apply never_nc_ret.
  - destruct (String.eqb method "exhaustive"); [|nc_now].
    apply never_nc_bind.
    + unfold query_array.
      destruct (Nat.eqb _ _); nc_now.
    + intros [distances indices].
      apply never_nc_bind; [apply never_nc_amin|].
      intros d. apply never_nc_ret.
Qed.

(** ** The clouds whose difference wraps around *)





(** ** The number of passes *)

(** With less fuel than a run has passes the loop is still running. *)
Lemma run_short_fuel (A B : list point) (r : nat) (rs qs : list nat) :
  run A B r rs qs ->
  forall fuel, (fuel < length rs)%nat -> alternate A B fuel r = None.
Proof.
  induction 1 as [r Hfix|r rs qs Hne Hrun IH]; intros fuel Hfuel.
  - cbn [length] in Hfuel. destruct fuel; [reflexivity|lia].
  - destruct fuel as [|fuel]; [reflexivity|]. cbn [alternate].
    destruct (Nat.eqb_spec (next_anchor A B r) r); [contradiction|].
    rewrite IH by (cbn [length] in Hfuel; lia). reflexivity.
Qed.

(** A run needs as much fuel as it has passes. *)
Lemma run_exact_fuel (A B : list point) (r : nat) (rs qs : list nat) :
  run A B r rs qs -> alternate A B (length rs) r = Some (rs, qs).
Proof.
  induction 1 as [r Hfix|r rs qs Hne Hrun IH]; cbn [length alternate].
  - rewrite Hfix, Nat.eqb_refl. reflexivity.
  - destruct (Nat.eqb_spec (next_anchor A B r) r); [contradiction|].
    rewrite IH. reflexivity.
Qed.

Lemma exact_number_of_passes (reference_points query_points : ndarray) :
  valid_input reference_points query_points ->
  exists d ris qis,
    (forall fuel, (length ris <= fuel)%nat ->
       result (find_shortest_distance fuel reference_points query_points "new")
       = Returned (RNew d ris qis)) /\
    (forall fuel, (fuel < length ris)%nat ->
       result (find_shortest_distance fuel reference_points query_points "new")
       = OutOfFuel) /\
    (forall k, (S k < length ris)%nat ->
       nearest (rows reference_points)
               (nth (nth k qis 0%nat) (rows query_points) [])
       <> nth k ris 0%nat) /\
    nearest (rows reference_points)
            (nth (last qis 0%nat) (rows query_points) [])
    = last ris 0%nat.
Proof.
  intros (Hwa & Hwb & Hdim & Hna & Hnb).
  pose proof (rows_nonempty _ Hna) as HA.
  pose proof (rows_nonempty _ Hnb) as HB.
  destruct (alternate_enough_fuel _ _ HA HB _ (Nat.le_refl _))
    as (rs & qs & Halt).
  pose proof (alternate_run _ _ _ _ _ _ Halt) as Hrun.
  exists (returned_distance reference_points query_points rs qs), rs, qs.
  split; [|split; [|split]].
  - intros fuel Hfuel. rewrite new_result by assumption.
    rewrite (alternate_mono _ _ _ _ _ fuel (run_exact_fuel _ _ _ _ _ Hrun))
      by exact Hfuel.
    reflexivity.
  - intros fuel Hfuel. rewrite new_result by assumption.
    rewrite (run_short_fuel _ _ _ _ _ Hrun fuel Hfuel). reflexivity.
  - intros k Hk.
    destruct (run_nth_next _ _ _ _ _ Hrun k Hk) as [Hnext Hne].
    rewrite (run_nth_query _ _ _ _ _ Hrun k) by lia.
    fold (next_anchor (rows reference_points) (rows query_points)
                      (nth k rs 0%nat)).
    rewrite <- Hnext. exact Hne.
  - destruct (run_last _ _ _ _ _ Hrun) as [Hfix Hlast].
    rewrite Hlast. exact Hfix.
Qed.

Lemma more_passes_than_any_cap (cap : nat) :
  exists a b d ris qis,
    valid_input a b /\
    (cap < length ris)%nat /\
    result (find_shortest_distance (length ris) a b "new")
    = Returned (RNew d ris qis).
Proof.
  pose proof (stair_valid cap) as Hvalid.
  destruct (exact_number_of_passes _ _ Hvalid)
    as (d & ris & qis & Hret & Hshort & _).
  exists (stair_reference (S cap)), (stair_query (S cap)), d, ris, qis.
  split; [exact Hvalid|]. split; [|apply Hret; lia].
  destruct (Nat.le_gt_cases (length ris) cap) as [Hle|Hgt]; [|exact Hgt].
  pose proof (Hret cap Hle) as H.
  rewrite stair_out_of_fuel in H. discriminate H.
Qed.

(** ** The properties of the specification *)

(** C2.  On non-empty clouds of matching dimensionality, method
    ['exhaustive'] returns one scalar; it is non-negative, no pair of a
    reference point and a query point is closer than it, and some pair is
    exactly that far apart: it is the minimum over all pairs. *)
Theorem exhaustive_returns_minimum_over_all_pairs
        (fuel : nat) (reference_points query_points : ndarray) :
  ncols reference_points = ncols query_points ->
  (0 < shape0 reference_points)%nat ->
  (0 < shape0 query_points)%nat ->
  exists d,
    result (find_shortest_distance fuel reference_points query_points
                                   "exhaustive")
    = Returned (RExhaustive d) /\
    (0 <= d)%R /\
    (forall i j a b,
        nth_error (rows reference_points) i = Some a ->
        nth_error (rows query_points) j = Some b ->
        (d <= distance a b)%R) /\
    (exists i j a b,
        nth_error (rows reference_points) i = Some a /\
        nth_error (rows query_points) j = Some b /\
        d = distance a b).
Proof.
  intros Hdim Hn Hq. apply exhaustive_minimum; assumption.
Qed.

(** C5.  The exhaustive method is symmetric: swapping the two clouds gives
    the same scalar. *)
Theorem exhaustive_symmetric (fuel fuel' : nat) (a b : ndarray) :
  ncols a = ncols b -> (0 < shape0 a)%nat -> (0 < shape0 b)%nat ->
  exists d,
    result (find_shortest_distance fuel a b "exhaustive")
    = Returned (RExhaustive d) /\
    result (find_shortest_distance fuel' b a "exhaustive")
    = Returned (RExhaustive d).
Proof.
  intros Hdim Ha Hb.
  destruct (exhaustive_minimum a b Hdim Ha Hb fuel)
    as (d & Hd & _ & Hle & (i & j & x & y & Hx & Hy & Hat)).
  destruct (exhaustive_minimum b a (eq_sym Hdim) Hb Ha fuel')
    as (d' & Hd' & _ & Hle' & (i' & j' & x' & y' & Hx' & Hy' & Hat')).
  exists d. split; [assumption|].
  rewrite Hd'. do 2 f_equal.
  apply Rle_antisym.
  - rewrite Hat, distance_sym. eauto.
  - rewrite Hat', distance_sym. eauto.
Qed.



(** C3.  On valid input the alternating loop returns, and along the trace it
    returns the distance from the reference anchor of a pass to its nearest
    query point never increases from one pass to the next.  Disjoint convex
    hulls are not needed for this. *)
Theorem round_trip_distances_nonincreasing
        (fuel : nat) (reference_points query_points : ndarray) :
  valid_input reference_points query_points ->
  (enough_fuel (rows reference_points) (rows query_points) <= fuel)%nat ->
  exists d ris qis,
    result (find_shortest_distance fuel reference_points query_points "new")
    = Returned (RNew d ris qis) /\
    forall k, (S k < length ris)%nat ->
      (pair_distance reference_points query_points ris qis (S k)
       <= pair_distance reference_points query_points ris qis k)%R.
Proof.
  intros (Hwa & Hwb & Hdim & Hna & Hnb) Hfuel.
  destruct (new_returns _ _ Hwa Hwb Hdim Hna Hnb fuel Hfuel)
    as (d & ris & qis & Hnew).
  exists d, ris, qis. split; [assumption|].
  destruct (new_returned _ _ Hwa Hwb Hdim Hna Hnb _ _ _ _ Hnew) as [Hrun _].
  intros k Hk. apply pair_distance_step; assumption.
Qed.

(** C9.  On valid input the [while 1] loop stops after finitely many passes:
    some amount of fuel is enough, and so is any larger amount.  The reason
    is in the trace: the round-trip distance never increases, and between
    two passes with the same distance the reference index strictly
    decreases. *)
Theorem alternating_loop_terminates (reference_points query_points : ndarray) :
  valid_input reference_points query_points ->
  exists fuel0, forall fuel, (fuel0 <= fuel)%nat ->
    exists d ris qis,
      result (find_shortest_distance fuel reference_points query_points "new")
      = Returned (RNew d ris qis) /\
      forall k, (S k < length ris)%nat ->
        (pair_distance reference_points query_points ris qis (S k)
         <= pair_distance reference_points query_points ris qis k)%R /\
        (pair_distance reference_points query_points ris qis (S k)
         = pair_distance reference_points query_points ris qis k ->
         (nth (S k) ris 0 < nth k ris 0)%nat).
Proof.
  intros (Hwa & Hwb & Hdim & Hna & Hnb).
  exists (enough_fuel (rows reference_points) (rows query_points)).
  intros fuel Hfuel.
  destruct (new_returns _ _ Hwa Hwb Hdim Hna Hnb fuel Hfuel)
    as (d & ris & qis & Hnew).
  exists d, ris, qis. split; [assumption|].
  destruct (new_returned _ _ Hwa Hwb Hdim Hna Hnb _ _ _ _ Hnew) as [Hrun _].
  intros k Hk. apply pair_distance_step; assumption.
Qed.



(** C6.  When either cloud has no point the function raises the empty-input
    exception at once, whatever the method: no event has been emitted, so no
    index was built and no distance evaluated, and nothing is returned. *)
Theorem empty_input_raises_first
        (fuel : nat) (reference_points query_points : ndarray)
        (method : string) :
  shape0 reference_points = 0%nat \/ shape0 query_points = 0%nat ->
  find_shortest_distance fuel reference_points query_points method
  = (Raised (Exception "The input point clouds cannot be empty!"), []).
Proof.
  intros H. unfold find_shortest_distance.
  destruct H as [-> | ->]; [reflexivity|].
  rewrite orb_true_r. reflexivity.
Qed.

(** C7, as the code has it.  On non-empty well-formed clouds of different
    dimensionality both methods fail with the dimension error of the first
    nearest-neighbour lookup.  It is raised after the kd-tree of the query
    cloud has been built, and for ['new'] after the kd-tree of the reference
    cloud too; no lookup has been answered and no norm taken. *)
Theorem dimension_mismatch_raised_by_first_query
        (fuel : nat) (reference_points query_points : ndarray) :
  wf_ndarray reference_points ->
  (0 < shape0 reference_points)%nat ->
  (0 < shape0 query_points)%nat ->
  ncols reference_points <> ncols query_points ->
  find_shortest_distance (S fuel) reference_points query_points "new"
  = (Raised DimensionMismatchError,
     [EvKDTree query_points; EvKDTree reference_points]) /\
  find_shortest_distance fuel reference_points query_points "exhaustive"
  = (Raised DimensionMismatchError, [EvKDTree query_points]).
Proof.
  intros Hwf Ha Hb Hdim. split.
  - apply new_mismatch; assumption.
  - apply exhaustive_mismatch; assumption.
Qed.

(** C8, as the code has it.  The alternating loop carries no iteration
    cap.  On valid input it makes exactly as many passes as it needs: with
    fewer unrollings than the returned trace has passes it is still running,
    with that many or more it has returned; no pass but the last was at a
    fixed point, and the last one was.  No constant bounds the number of
    passes: for every [cap] some valid input takes more and still returns
    its result.  And on no input, with no method, does the function fail
    with [NonConvergenceError]. *)
Theorem alternating_loop_runs_uncapped
        (cap : nat) (reference_points query_points : ndarray) :
  valid_input reference_points query_points ->
  (exists d ris qis,
      (forall fuel, (length ris <= fuel)%nat ->
         result (find_shortest_distance fuel reference_points query_points
                                        "new")
         = Returned (RNew d ris qis)) /\
      (forall fuel, (fuel < length ris)%nat ->
         result (find_shortest_distance fuel reference_points query_points
                                        "new")
         = OutOfFuel) /\
      (forall k, (S k < length ris)%nat ->
         nearest (rows reference_points)
                 (nth (nth k qis 0%nat) (rows query_points) [])
         <> nth k ris 0%nat) /\
      nearest (rows reference_points)
              (nth (last qis 0%nat) (rows query_points) [])
      = last ris 0%nat) /\
  (exists a b d ris qis,
      valid_input a b /\
      (cap < length ris)%nat /\
      result (find_shortest_distance (length ris) a b "new")
      = Returned (RNew d ris qis)) /\
  (forall fuel a b method,
      result (find_shortest_distance fuel a b method)
      <> Raised NonConvergenceError).
Proof.
  intros Hvalid. split; [|split].
  - apply exact_number_of_passes, Hvalid.
  - apply more_passes_than_any_cap.
  - intros fuel a b method. apply find_shortest_distance_never_nc.
Qed.

(** C8 fails on the code: whatever the cap, the stair one size larger is
    still alternating after that many passes, and no amount of further
    passes makes the function raise [NonConvergenceError]. *)
Lemma no_iteration_cap : ~ has_iteration_cap.
Proof.
  intros [cap Hcap].
  destruct (Hcap (stair_reference (S cap)) (stair_query (S cap))
                 (stair_valid cap) (stair_out_of_fuel cap)) as [fuel Hfuel].
  exact (find_shortest_distance_never_nc _ _ _ _ Hfuel).
Qed.

(** C1.  The agreement of the two methods on clouds with disjoint convex
    hulls fails on the code.  For the reference cloud [(0,0), (10,0)] and the
    query cloud [(0,3), (10,1)] the hulls are disjoint; method ['new'] stops
    in its first pass at the pair of index 0 and returns 3, while method
    ['exhaustive'] returns 1, the distance of the pair of index 1. *)
Theorem alternating_misses_closest_pair :
  valid_input skew_reference skew_query /\
  hulls_disjoint skew_reference skew_query /\
  (forall fuel,
      result (find_shortest_distance (S fuel) skew_reference skew_query "new")
      = Returned (RNew 3%R [0%nat] [0%nat])) /\
  (forall fuel,
      result (find_shortest_distance fuel skew_reference skew_query
                                     "exhaustive")
      = Returned (RExhaustive 1%R)) /\
  (1 < 3)%R.
Proof.
  assert (Hv : valid_input skew_reference skew_query)
    by (apply valid_inputb_true; reflexivity).
  assert (H9 : sqrt 9 = 3%R)
    by (replace 9%R with (3 * 3)%R by lra; apply sqrt_square; lra).
  split; [exact Hv|].
  destruct Hv as (Hwa & Hwb & Hdim & Hna & Hnb).
  split; [|split; [|split]].
  - intros (ws & us & (Hlw & Hpw & Hsw) & (Hlu & Hpu & Hsu) & Hc).
    destruct ws as [|w0 [|w1 [|? ?]]]; try discriminate Hlw.
    destruct us as [|u0 [|u1 [|? ?]]]; try discriminate Hlu.
    specialize (Hc 1%nat). cbn in Hc. cbn in Hsw, Hsu.
    inversion Hpu as [|? ? Hu0 Hpu']; subst.
    inversion Hpu' as [|? ? Hu1 _]; subst.
    assert (Hlt : (1 < 2)%nat) by lia. specialize (Hc Hlt). lra.
  - intros fuel. rewrite new_result by assumption.
    change (alternate (rows skew_reference) (rows skew_query) (S fuel) 0)
      with (Some ([0%nat], [0%nat])).
    cbv beta iota.
    change (returned_distance skew_reference skew_query [0%nat] [0%nat])
      with (sqrt 9).
    rewrite H9. reflexivity.
  - intros fuel. rewrite exhaustive_result by assumption.
    change (nn_distances (rows skew_reference) (rows skew_query))
      with [sqrt 9; sqrt 1].
    cbn [hd tl fold_left]. rewrite H9, sqrt_1.
    rewrite Rmin_right by lra. reflexivity.
  - lra.
Qed.

(** C7 fails on the code: for a two-dimensional reference cloud and a
    three-dimensional query cloud the dimension error is raised, but only
    after both kd-trees have been built. *)
Lemma dimension_mismatch_after_index_construction :
  result (find_shortest_distance 1 skew_reference space_query "new")
  = Raised DimensionMismatchError /\
  events (find_shortest_distance 1 skew_reference space_query "new")
  = [EvKDTree space_query; EvKDTree skew_reference] /\
  events (find_shortest_distance 1 skew_reference space_query "new") <> [].
Proof.
  repeat split; try reflexivity. discriminate.
Qed.

(** ** The statements at concrete inputs *)

(** C2 on the clouds [skew_reference] and [skew_query]. *)
Lemma exhaustive_returns_minimum_over_all_pairs_witness :
  (ncols skew_reference = ncols skew_query /\
   (0 < shape0 skew_reference)%nat /\ (0 < shape0 skew_query)%nat) /\
  exists d,
    result (find_shortest_distance 0 skew_reference skew_query "exhaustive")
    = Returned (RExhaustive d) /\
    (0 <= d)%R /\
    (forall i j a b,
        nth_error (rows skew_reference) i = Some a ->
        nth_error (rows skew_query) j = Some b ->
        (d <= distance a b)%R) /\
    (exists i j a b,
        nth_error (rows skew_reference) i = Some a /\
        nth_error (rows skew_query) j = Some b /\
        d = distance a b).
Proof.
  split.
  - repeat split; unfold shape0; simpl; lia.
  - apply (exhaustive_returns_minimum_over_all_pairs 0 skew_reference
                                                     skew_query);
      unfold shape0; simpl; lia.
Defined.

(** C5 on the clouds [skew_reference] and [skew_query]. *)
Lemma exhaustive_symmetric_witness :
  (ncols skew_reference = ncols skew_query /\
   (0 < shape0 skew_reference)%nat /\ (0 < shape0 skew_query)%nat) /\
  exists d,
    result (find_shortest_distance 0 skew_reference skew_query "exhaustive")
    = Returned (RExhaustive d) /\
    result (find_shortest_distance 0 skew_query skew_reference "exhaustive")
    = Returned (RExhaustive d).
Proof.
  split.
  - repeat split; unfold shape0; simpl; lia.
  - apply (exhaustive_symmetric 0 0 skew_reference skew_query);
      unfold shape0; simpl; lia.
Defined.


(** C3 on the stair of size 2, whose trace has three passes. *)
Lemma round_trip_distances_nonincreasing_witness :
  (valid_input (stair_reference 2) (stair_query 2) /\
   (enough_fuel (rows (stair_reference 2)) (rows (stair_query 2)) <= 200)%nat)
  /\
  exists d ris qis,
    result (find_shortest_distance 200 (stair_reference 2) (stair_query 2)
                                   "new")
    = Returned (RNew d ris qis) /\
    forall k, (S k < length ris)%nat ->
      (pair_distance (stair_reference 2) (stair_query 2) ris qis (S k)
       <= pair_distance (stair_reference 2) (stair_query 2) ris qis k)%R.
Proof.
  split.
  - split; [apply valid_inputb_true; reflexivity|vm_compute; lia].
  - apply (round_trip_distances_nonincreasing 200 (stair_reference 2)
                                              (stair_query 2)).
    + apply valid_inputb_true; reflexivity.
    + vm_compute; lia.
Defined.

(** C9 on the stair of size 2. *)
Lemma alternating_loop_terminates_witness :
  valid_input (stair_reference 2) (stair_query 2) /\
  exists fuel0, forall fuel, (fuel0 <= fuel)%nat ->
    exists d ris qis,
      result (find_shortest_distance fuel (stair_reference 2) (stair_query 2)
                                     "new")
      = Returned (RNew d ris qis) /\
      forall k, (S k < length ris)%nat ->
        (pair_distance (stair_reference 2) (stair_query 2) ris qis (S k)
         <= pair_distance (stair_reference 2) (stair_query 2) ris qis k)%R /\
        (pair_distance (stair_reference 2) (stair_query 2) ris qis (S k)
         = pair_distance (stair_reference 2) (stair_query 2) ris qis k ->
         (nth (S k) ris 0 < nth k ris 0)%nat).
Proof.
  split.
  - apply valid_inputb_true; reflexivity.
  - apply (alternating_loop_terminates (stair_reference 2) (stair_query 2)).
    apply valid_inputb_true; reflexivity.
Defined.


(** C8, as the code has it, on the zigzag clouds and the cap 2. *)
Lemma alternating_loop_runs_uncapped_witness :
  valid_input zigzag_reference zigzag_query /\
  (exists d ris qis,
      (forall fuel, (length ris <= fuel)%nat ->
         result (find_shortest_distance fuel zigzag_reference zigzag_query
                                        "new")
         = Returned (RNew d ris qis)) /\
      (forall fuel, (fuel < length ris)%nat ->
         result (find_shortest_distance fuel zigzag_reference zigzag_query
                                        "new")
         = OutOfFuel) /\
      (forall k, (S k < length ris)%nat ->
         nearest (rows zigzag_reference)
                 (nth (nth k qis 0%nat) (rows zigzag_query) [])
         <> nth k ris 0%nat) /\
      nearest (rows zigzag_reference)
              (nth (last qis 0%nat) (rows zigzag_query) [])
      = last ris 0%nat) /\
  (exists a b d ris qis,
      valid_input a b /\
      (2 < length ris)%nat /\
      result (find_shortest_distance (length ris) a b "new")
      = Returned (RNew d ris qis)) /\
  (forall fuel a b method,
      result (find_shortest_distance fuel a b method)
      <> Raised NonConvergenceError).
Proof.
  split.
  - apply valid_inputb_true; reflexivity.
  - apply (alternating_loop_runs_uncapped 2 zigzag_reference zigzag_query).
    apply valid_inputb_true; reflexivity.
Defined.

(** C6 on a reference cloud without points. *)
Lemma empty_input_raises_first_witness :
  (shape0 no_points = 0%nat \/ shape0 skew_query = 0%nat) /\
  find_shortest_distance 5 no_points skew_query "new"
  = (Raised (Exception "The input point clouds cannot be empty!"), []).
Proof.
  split.
  - left; reflexivity.
  - apply (empty_input_raises_first 5 no_points skew_query "new").
    left; reflexivity.
Defined.

(** C7, as the code has it, on a two-dimensional and a three-dimensional
    cloud. *)
Lemma dimension_mismatch_raised_by_first_query_witness :
  (wf_ndarray skew_reference /\
   (0 < shape0 skew_reference)%nat /\
   (0 < shape0 space_query)%nat /\
   ncols skew_reference <> ncols space_query) /\
  find_shortest_distance 1 skew_reference space_query "new"
  = (Raised DimensionMismatchError,
     [EvKDTree space_query; EvKDTree skew_reference]) /\
  find_shortest_distance 0 skew_reference space_query "exhaustive"
  = (Raised DimensionMismatchError, [EvKDTree space_query]).
Proof.
  split.
  - split; [apply wf_ndarrayb_true; reflexivity|].
    split; [unfold shape0; simpl; lia|].
    split; [unfold shape0; simpl; lia|].
    simpl; lia.
  - apply (dimension_mismatch_raised_by_first_query 0 skew_reference
                                                    space_query).
    + apply wf_ndarrayb_true; reflexivity.
    + unfold shape0; simpl; lia.
    + unfold shape0; simpl; lia.
    + simpl; lia.
Defined.

(** * Further properties of the notebook's functions *)

(** ** More on the traces of method ['new'] *)

Lemma run_Forall_lt (A B : list point) (r : nat) (rs qs : list nat) :
  A <> [] -> B <> [] -> (r < length A)%nat -> run A B r rs qs ->
  Forall (fun x => (x < length A)%nat) rs /\
  Forall (fun x => (x < length B)%nat) qs.
Proof.
  intros HA HB Hr Hrun. revert Hr.
  induction Hrun as [r Hfix|r rs qs Hne Hrun IH]; intros Hr.
  - split; repeat constructor; auto using nn_query_lt.
  - destruct (IH (next_anchor_lt A B HA r)) as [IHr IHq].
    split; constructor; auto using nn_query_lt.
Qed.

Lemma run_measure_le (A B : list point) (r : nat) (rs qs : list nat) :
  A <> [] -> B <> [] -> (r < length A)%nat -> run A B r rs qs ->
  Forall (fun x => measure A B x <= measure A B r) rs.
Proof.
  intros HA HB Hr Hrun. revert Hr.
  induction Hrun as [r Hfix|r rs qs Hne Hrun IH]; intros Hr.
  - repeat constructor. lia.
  - constructor; [lia|].
    pose proof (measure_next A B HA HB r Hr Hne) as Hlt.
    specialize (IH (next_anchor_lt A B HA r)).
    rewrite Forall_forall in *. intros x Hx. specialize (IH x Hx). lia.
Qed.

Lemma run_NoDup (A B : list point) (r : nat) (rs qs : list nat) :
  A <> [] -> B <> [] -> (r < length A)%nat -> run A B r rs qs -> NoDup rs.
Proof.
  intros HA HB Hr Hrun. revert Hr.
  induction Hrun as [r Hfix|r rs qs Hne Hrun IH]; intros Hr.
  - constructor; [intros []|constructor].
  - constructor; [|apply IH, next_anchor_lt, HA].
    intros Hin.
    pose proof (run_measure_le A B _ _ _ HA HB (next_anchor_lt A B HA r) Hrun)
      as Hle.
    rewrite Forall_forall in Hle. specialize (Hle r Hin).
    pose proof (measure_next A B HA HB r Hr Hne). lia.
Qed.

Lemma run_length_le (A B : list point) (r : nat) (rs qs : list nat) :
  A <> [] -> B <> [] -> (r < length A)%nat -> run A B r rs qs ->
  (length rs <= length A)%nat.
Proof.
  intros HA HB Hr Hrun.
  destruct (run_Forall_lt A B r rs qs HA HB Hr Hrun) as [Hlt _].
  rewrite <- (length_seq (length A) 0).
  apply NoDup_incl_length; [apply (run_NoDup A B r rs qs); assumption|].
  intros x Hx. rewrite Forall_forall in Hlt.
  apply in_seq. specialize (Hlt x Hx). lia.
Qed.



(** X1.  On non-empty clouds a method other than ['new'] and ['exhaustive']
    is refused with the exception of the last branch; by then the kd-tree of
    the query cloud has been built, and nothing else has been done.  The
    dimensionality of the clouds plays no part. *)
Theorem unknown_method_raises_after_first_tree
        (fuel : nat) (reference_points query_points : ndarray)
        (method : string) :
  (0 < shape0 reference_points)%nat ->
  (0 < shape0 query_points)%nat ->
  method <> "new"%string -> method <> "exhaustive"%string ->
  find_shortest_distance fuel reference_points query_points method
  = (Raised (Exception "The selected method is incorrect! Only 'new' or 'exhaustive' method can be used."),
     [EvKDTree query_points]).
Proof.
  intros Ha Hb Hnew Hex. unfold find_shortest_distance.
  rewrite (shape_check _ _ Ha Hb).
  apply String.eqb_neq in Hnew. apply String.eqb_neq in Hex.
  rewrite Hnew, Hex. reflexivity.
Qed.

(** X2.  On valid input the alternation never comes back to a reference
    index it has left: the returned [reference_indices] has no repetition,
    so the loop makes at most as many passes as there are reference points,
    and that many units of fuel are always enough. *)
Theorem new_returns_within_n_passes
        (fuel : nat) (reference_points query_points : ndarray) :
  valid_input reference_points query_points ->
  (shape0 reference_points <= fuel)%nat ->
  exists d ris qis,
    result (find_shortest_distance fuel reference_points query_points "new")
    = Returned (RNew d ris qis) /\
    NoDup ris /\
    (length ris <= shape0 reference_points)%nat.
Proof.
  intros (Hwa & Hwb & Hdim & Hna & Hnb) Hfuel.
  pose proof (rows_nonempty _ Hna) as HA.
  pose proof (rows_nonempty _ Hnb) as HB.
  destruct (alternate_enough_fuel _ _ HA HB _ (Nat.le_refl _))
    as (rs & qs & Halt).
  pose proof (alternate_run _ _ _ _ _ _ Halt) as Hrun.
  pose proof (run_length_le _ _ _ _ _ HA HB Hna Hrun) as Hlen.
  pose proof (run_exact_fuel _ _ _ _ _ Hrun) as Hexact.
  assert (Hf : alternate (rows reference_points) (rows query_points) fuel 0
               = Some (rs, qs)).
  { eapply alternate_mono; [exact Hexact|]. unfold shape0 in Hfuel. lia. }
  rewrite new_result by assumption. rewrite Hf.
  eexists _, rs, qs. split; [reflexivity|].
  split; [apply (run_NoDup _ _ 0%nat rs qs HA HB Hna Hrun)|exact Hlen].
Qed.

(** X3.  The pair method ['new'] returns is mutually nearest: no query point
    is nearer to the last reference point than [d], and no reference point
    is nearer to the last query point than [d]. *)
Theorem returned_pair_mutually_nearest
        (fuel : nat) (reference_points query_points : ndarray)
        (d : R) (ris qis : list nat) :
  valid_input reference_points query_points ->
  result (find_shortest_distance fuel reference_points query_points "new")
  = Returned (RNew d ris qis) ->
  (forall j b, nth_error (rows query_points) j = Some b ->
     (d <= distance (nth (last ris 0%nat) (rows reference_points) []) b)%R) /\
  (forall i a, nth_error (rows reference_points) i = Some a ->
     (d <= distance a (nth (last qis 0%nat) (rows query_points) []))%R).
Proof.
  intros (Hwa & Hwb & Hdim & Hna & Hnb) Hnew.
  destruct (new_returned _ _ Hwa Hwb Hdim Hna Hnb _ _ _ _ Hnew) as [Hrun ->].
  destruct (run_last _ _ _ _ _ Hrun) as [Hfix Hq].
  split.
  - intros j b Hb.
    eapply Rle_trans; [apply returned_distance_le|].
    rewrite (distance_sym _ b), distance_sym.
    apply distance_le. rewrite Hq. unfold nn_query.
    apply nearest_le with (j := j), Hb.
  - intros i a Ha.
    eapply Rle_trans; [apply returned_distance_le|].
    apply distance_le. rewrite <- Hfix at 1. unfold next_anchor.
    rewrite <- Hq. apply nearest_le with (j := i), Ha.
Qed.

(** X4.  Every index of the two lists method ['new'] returns is a row of its
    cloud: the reference indices are below the number of reference points,
    the query indices below the number of query points. *)
Theorem trace_indices_in_range
        (fuel : nat) (reference_points query_points : ndarray)
        (d : R) (ris qis : list nat) :
  valid_input reference_points query_points ->
  result (find_shortest_distance fuel reference_points query_points "new")
  = Returned (RNew d ris qis) ->
  Forall (fun r => (r < shape0 reference_points)%nat) ris /\
  Forall (fun q => (q < shape0 query_points)%nat) qis.
Proof.
  intros (Hwa & Hwb & Hdim & Hna & Hnb) Hnew.
  destruct (new_returned _ _ Hwa Hwb Hdim Hna Hnb _ _ _ _ Hnew) as [Hrun _].
  apply (run_Forall_lt _ _ 0%nat); auto using rows_nonempty.
Qed.


(** ** The logs of the two methods *)

Section ProgramEvents.

Variables reference_points query_points : ndarray.

Hypothesis wf_reference : wf_ndarray reference_points.
Hypothesis wf_query : wf_ndarray query_points.
Hypothesis same_dim : ncols reference_points = ncols query_points.
Hypothesis reference_nonempty : (0 < shape0 reference_points)%nat.
Hypothesis query_nonempty : (0 < shape0 query_points)%nat.



End ProgramEvents.



(** X7.  On non-empty clouds of the same dimensionality the log of method
    ['exhaustive'] is the kd-tree of the query cloud followed by a single
    lookup call that is handed the whole reference array: the reference
    cloud gets no kd-tree, there is no lookup per point and no norm is
    taken. *)
Theorem exhaustive_log_single_array_lookup
        (fuel : nat) (reference_points query_points : ndarray) :
  ncols reference_points = ncols query_points ->
  (0 < shape0 reference_points)%nat ->
  (0 < shape0 query_points)%nat ->
  events (find_shortest_distance fuel reference_points query_points
                                 "exhaustive")
  = [EvKDTree query_points; EvQueryArray query_points reference_points].
Proof.
  intros Hdim Ha Hb. unfold find_shortest_distance.
  rewrite (shape_check _ _ Ha Hb).
  cbn [KDTree_new emit bind ret app String.eqb Ascii.eqb Bool.eqb].
  unfold query_array. cbn [data].
  rewrite Hdim, Nat.eqb_refl.
  cbn [emit bind ret app data].
  unfold shape0 in Ha.
  destruct (rows reference_points) as [|p ps]; [simpl in Ha; lia|].
  reflexivity.
Qed.

(** ** Clouds of a single point *)

(** X8.  When the reference cloud has a single point and the subtraction
    of the last statement does not wrap around, method ['new'] stops in its
    first pass, at index 0 and the nearest query point, and returns the
    scalar method ['exhaustive'] returns. *)
Theorem single_reference_point_agrees
        (fuel fuel' : nat) (reference_points query_points : ndarray) :
  valid_input reference_points query_points ->
  no_wraparound reference_points query_points ->
  shape0 reference_points = 1%nat ->
  exists d q,
    result (find_shortest_distance (S fuel) reference_points query_points
                                   "new")
    = Returned (RNew d [0%nat] [q]) /\
    result (find_shortest_distance fuel' reference_points query_points
                                   "exhaustive")
    = Returned (RExhaustive d).
Proof.
  intros (Hwa & Hwb & Hdim & Hna & Hnb) Hno Hone.
  pose proof (rows_nonempty _ Hna) as HA.
  pose proof (rows_nonempty _ Hnb) as HB.
  set (A := rows reference_points) in *. set (B := rows query_points) in *.
  assert (Hfix : next_anchor A B 0 = 0%nat).
  { pose proof (next_anchor_lt A B HA 0). unfold shape0 in Hone. fold A in Hone.
    lia. }
  rewrite new_result by assumption. fold A B.
  cbn [alternate]. rewrite Hfix, Nat.eqb_refl.
  rewrite (returned_distance_exact _ _ _ _ Hno)
    by (cbn [last]; first [exact Hna|apply nn_query_lt, HB]).
  cbn [last]. fold A B.
  destruct (exhaustive_minimum _ _ Hdim Hna Hnb fuel')
    as (d' & Hd' & _ & Hle & (i & j & x & y & Hx & Hy & Hat)).
  fold A B in Hle, Hx, Hy.
  exists (distance (nth 0 A []) (nth (nn_query A B 0) B [])), (nn_query A B 0).
  split; [reflexivity|].
  rewrite Hd'. do 2 f_equal.
  assert (Hi : i = 0%nat).
  { assert (i < length A)%nat by (apply nth_error_Some; congruence).
    unfold shape0 in Hone. fold A in Hone. lia. }
  subst i.
  assert (Hx0 : nth 0 A [] = x) by (apply nth_error_nth, Hx).
  apply Rle_antisym.
  - apply (Hle 0%nat (nn_query A B 0)).
    + apply nth_error_nth_lt. unfold shape0 in Hna. exact Hna.
    + apply nth_error_nth_lt, nn_query_lt, HB.
  - rewrite Hat, Hx0, (distance_sym x), (distance_sym x).
    apply distance_le. unfold nn_query. rewrite Hx0.
    apply nearest_le with (j := j), Hy.
Qed.

(** X9.  When the query cloud has a single point and the subtraction of the
    last statement does not wrap around, method ['new'] stops after at most
    two passes and returns the scalar method ['exhaustive'] returns. *)
Theorem single_query_point_agrees
        (fuel fuel' : nat) (reference_points query_points : ndarray) :
  valid_input reference_points query_points ->
  no_wraparound reference_points query_points ->
  shape0 query_points = 1%nat ->
  exists d ris qis,
    result (find_shortest_distance (S (S fuel)) reference_points query_points
                                   "new")
    = Returned (RNew d ris qis) /\
    (length ris <= 2)%nat /\
    result (find_shortest_distance fuel' reference_points query_points
                                   "exhaustive")
    = Returned (RExhaustive d).
Proof.
  intros (Hwa & Hwb & Hdim & Hna & Hnb) Hno Hone.
  pose proof (rows_nonempty _ Hna) as HA.
  pose proof (rows_nonempty _ Hnb) as HB.
  set (A := rows reference_points) in *. set (B := rows query_points) in *.
  assert (Hq : forall r, nn_query A B r = 0%nat).
  { intros r. pose proof (nn_query_lt A B HB r).
    unfold shape0 in Hone. fold B in Hone. lia. }
  set (m := nearest A (nth 0 B [])).
  assert (Hnext : forall r, next_anchor A B r = m).
  { intros r. unfold next_anchor. rewrite Hq. reflexivity. }
  assert (Hm : (m < length A)%nat) by (apply nearest_lt, HA).
  destruct (exhaustive_minimum _ _ Hdim Hna Hnb fuel')
    as (d' & Hd' & _ & Hle & (i & j & x & y & Hx & Hy & Hat)).
  fold A B in Hle, Hx, Hy.
  assert (Hj : j = 0%nat).
  { assert (j < length B)%nat by (apply nth_error_Some; congruence).
    unfold shape0 in Hone. fold B in Hone. lia. }
  subst j.
  assert (Hy0 : nth 0 B [] = y) by (apply nth_error_nth, Hy).
  assert (Hd : d' = distance (nth m A []) (nth 0 B [])).
  { apply Rle_antisym.
    - apply (Hle m 0%nat); [apply nth_error_nth_lt, Hm|].
      apply nth_error_nth_lt. unfold shape0 in Hnb. exact Hnb.
    - rewrite Hat, Hy0. apply distance_le. unfold m. rewrite Hy0.
      apply nearest_le with (j := i), Hx. }
  rewrite new_result by assumption. fold A B.
  rewrite Hd', Hd.
  cbn [alternate]. rewrite !Hnext, !Hq.
  destruct (Nat.eqb_spec m 0) as [Hm0|Hm0].
  - rewrite (returned_distance_exact _ _ _ _ Hno)
      by (cbn [last]; assumption).
    cbn [last]. fold A B. rewrite Hm0.
    eexists _, [0%nat], [0%nat].
    split; [reflexivity|]. split; [simpl; lia|reflexivity].
  - rewrite Nat.eqb_refl.
    rewrite (returned_distance_exact _ _ _ _ Hno)
      by (cbn [last]; assumption).
    cbn [last]. fold A B.
    eexists _, [0%nat; m], [0%nat; 0%nat].
    split; [reflexivity|]. split; [simpl; lia|reflexivity].
Qed.

(** ** [show_search_path] *)

Lemma cell_cases (a : ndarray) (l : list nat) (i c : nat) :
  (exists v, cell a l i c = (Returned v, [])) \/
  cell a l i c = (Raised IndexError, []).
Proof.
  unfold cell, list_item, getitem, coordinate.
  destruct (nth_error l i) as [k|]; [|right; reflexivity].
  cbn [bind ret raise app].
  destruct (nth_error (rows a) k) as [p|]; [|right; reflexivity].
  cbn [bind ret raise app].
  destruct (nth_error p c) as [v|]; [left; exists v|right]; reflexivity.
Qed.

Lemma cell_ok (a : ndarray) (l : list nat) (i c : nat) :
  wf_ndarray a -> (i < length l)%nat -> (nth i l 0 < shape0 a)%nat ->
  (c < ncols a)%nat ->
  cell a l i c = (Returned (nth c (nth (nth i l 0%nat) (rows a) []) 0), []).
Proof.
  intros Hwf Hi Hk Hc. unfold cell, list_item.
  rewrite (nth_error_nth' l 0%nat Hi). cbn [bind ret app].
  rewrite (getitem_lt _ _ Hk). cbn [bind ret app].
  unfold coordinate.
  rewrite (nth_error_nth' _ 0) by (rewrite (wf_nth _ _ Hwf Hk); exact Hc).
  reflexivity.
Qed.

Lemma column_cases (a : ndarray) (c : nat) :
  column a c
  = if Nat.ltb c (ncols a)
    then (Returned (coordinates c (rows a)), [])
    else (Raised IndexError, []).
Proof. unfold column. destruct (Nat.ltb c (ncols a)); reflexivity. Qed.

(** A pass of the loop either fails on an index or appends four values to
    each list. *)
Lemma path_body_cases (a : ndarray) (ris : list nat) (b : ndarray)
      (qis : list nat) (i : nat) (x y : list Z) :
  (exists x4 y4, length x4 = 4%nat /\ length y4 = 4%nat /\
                 path_body a ris b qis i (x, y)
                 = (Returned (x ++ x4, y ++ y4), [])) \/
  path_body a ris b qis i (x, y) = (Raised IndexError, []).
Proof.
  unfold path_body.
  destruct (cell_cases a ris i 0) as [[v1 ->]| ->]; [|right; reflexivity].
  cbn [bind ret app].
  destruct (cell_cases a ris i 1) as [[w1 ->]| ->]; [|right; reflexivity].
  cbn [bind ret app].
  destruct (cell_cases b qis i 0) as [[v2 ->]| ->]; [|right; reflexivity].
  cbn [bind ret app].
  destruct (cell_cases b qis i 1) as [[w2 ->]| ->]; [|right; reflexivity].
  cbn [bind ret app].
  destruct (cell_cases b qis (i + 1) 0) as [[v3 ->]| ->]; [|right; reflexivity].
  cbn [bind ret app].
  destruct (cell_cases b qis (i + 1) 1) as [[w3 ->]| ->]; [|right; reflexivity].
  cbn [bind ret app].
  destruct (cell_cases a ris (i + 1) 0) as [[v4 ->]| ->]; [|right; reflexivity].
  cbn [bind ret app].
  destruct (cell_cases a ris (i + 1) 1) as [[w4 ->]| ->]; [|right; reflexivity].
  cbn [bind ret app].
  left. exists [v1; v2; v3; v4], [w1; w2; w3; w4].
  repeat split. rewrite <- !app_assoc. reflexivity.
Qed.

Lemma for_each_path_cases (a : ndarray) (ris : list nat) (b : ndarray)
      (qis : list nat) (range_ : list nat) :
  forall x y,
    (exists x' y', length x' = (length x + 4 * length range_)%nat /\
                   length y' = (length y + 4 * length range_)%nat /\
                   for_each range_ (path_body a ris b qis) (x, y)
                   = (Returned (x', y'), [])) \/
    for_each range_ (path_body a ris b qis) (x, y) = (Raised IndexError, []).
Proof.
  induction range_ as [|i rest IH]; intros x y.
  - left. exists x, y. cbn [length for_each]. repeat split; lia.
  - cbn [for_each].
    destruct (path_body_cases a ris b qis i x y)
      as [(x4 & y4 & Hx4 & Hy4 & ->)| ->]; [|right; reflexivity].
    cbn [bind].
    destruct (IH (x ++ x4) (y ++ y4))
      as [(x' & y' & Hx' & Hy' & ->)| ->]; [|right; reflexivity].
    left. exists x', y'. rewrite length_app in Hx', Hy'.
    cbn [length]. repeat split; try lia.
Qed.

Lemma Forall_nth_lt (l : list nat) (n i : nat) :
  Forall (fun k => (k < n)%nat) l -> (i < length l)%nat ->
  (nth i l 0 < n)%nat.
Proof.
  intros H Hi. rewrite Forall_forall in H. apply H, nth_In, Hi.
Qed.

Section Drawable.

Variables a b : ndarray.
Variables ris qis : list nat.

Hypothesis wf_a : wf_ndarray a.
Hypothesis wf_b : wf_ndarray b.
Hypothesis two_a : (2 <= ncols a)%nat.
Hypothesis two_b : (2 <= ncols b)%nat.
Hypothesis same_length : length qis = length ris.
Hypothesis ris_in_range : Forall (fun r => (r < shape0 a)%nat) ris.
Hypothesis qis_in_range : Forall (fun q => (q < shape0 b)%nat) qis.

Lemma path_body_ok (i : nat) (x y : list Z) :
  (S i < length ris)%nat ->
  path_body a ris b qis i (x, y)
  = (Returned (x ++ coordinates 0 (path_step_points a b ris qis i),
               y ++ coordinates 1 (path_step_points a b ris qis i)), []).
Proof.
  intros Hi. unfold path_body.
  rewrite !(cell_ok a ris i), !(cell_ok b qis i),
    !(cell_ok b qis (i + 1)), !(cell_ok a ris (i + 1));
    try assumption; try lia;
    try (apply Forall_nth_lt; [assumption|lia]).
  cbn [bind ret app]. rewrite <- !app_assoc. reflexivity.
Qed.

Lemma for_each_path_ok (len : nat) :
  forall s x y,
    (s + len < length ris)%nat ->
    for_each (seq s len) (path_body a ris b qis) (x, y)
    = (Returned
         (x ++ coordinates 0
                 (flat_map (path_step_points a b ris qis) (seq s len)),
          y ++ coordinates 1
                 (flat_map (path_step_points a b ris qis) (seq s len))),
       []).
Proof.
  induction len as [|len IH]; intros s x y Hs.
  - cbn [seq for_each flat_map coordinates map]. rewrite !app_nil_r.
    reflexivity.
  - cbn [seq for_each]. rewrite path_body_ok by lia. cbn [bind].
    rewrite IH by lia. cbn [flat_map app].
    unfold coordinates. rewrite !map_app, <- !app_assoc. reflexivity.
Qed.

Lemma show_search_path_ok :
  show_search_path a ris b qis
  = (Returned
       (mk_figure (coordinates 0 (rows a), coordinates 1 (rows a))
                  (coordinates 0 (rows b), coordinates 1 (rows b))
                  (coordinates 0 (path_points a b ris qis),
                   coordinates 1 (path_points a b ris qis))),
     []).
Proof.
  unfold show_search_path.
  assert (Hloop :
            for_each (seq 0 (length ris - 1)) (path_body a ris b qis) ([], [])
            = (Returned (coordinates 0 (path_points a b ris qis),
                         coordinates 1 (path_points a b ris qis)), [])).
  { unfold path_points.
    destruct (Nat.eq_dec (length ris) 0) as [E|E].
    - rewrite E. reflexivity.
    - rewrite for_each_path_ok; [reflexivity|lia]. }
  rewrite Hloop. cbn [bind].
  rewrite !column_cases.
  destruct (Nat.ltb_spec 0 (ncols a)); [|lia].
  destruct (Nat.ltb_spec 1 (ncols a)); [|lia].
  destruct (Nat.ltb_spec 0 (ncols b)); [|lia].
  destruct (Nat.ltb_spec 1 (ncols b)); [|lia].
  reflexivity.
Qed.

End Drawable.

(** X10.  Whenever [show_search_path] gets as far as drawing: for an empty
    trace the loop does not run and the path is empty; for a trace of [n]
    passes, [n] at least 1, the lists of abscissas and of ordinates of the
    path both have exactly [4 * (n - 1)] entries, so a trace of a single
    pass gives an empty path too. *)
Theorem search_path_has_four_points_per_step
        (reference_points : ndarray) (reference_indices : list nat)
        (query_points : ndarray) (query_indices : list nat) (fig : figure) :
  result (show_search_path reference_points reference_indices
                           query_points query_indices)
  = Returned fig ->
  (reference_indices = [] -> path fig = ([], [])) /\
  (reference_indices <> [] ->
   Z.of_nat (length (fst (path fig)))
   = 4 * (Z.of_nat (length reference_indices) - 1) /\
   Z.of_nat (length (snd (path fig)))
   = 4 * (Z.of_nat (length reference_indices) - 1)).
Proof.
  unfold show_search_path.
  destruct (for_each_path_cases reference_points reference_indices
                                query_points query_indices
                                (seq 0 (length reference_indices - 1)) [] [])
    as [(x' & y' & Hx' & Hy' & ->)| ->]; [|discriminate].
  rewrite length_seq in Hx', Hy'. cbn [length] in Hx', Hy'.
  cbn [bind]. rewrite !column_cases.
  destruct (Nat.ltb 0 (ncols reference_points)); [|discriminate].
  destruct (Nat.ltb 1 (ncols reference_points)); [|discriminate].
  destruct (Nat.ltb 0 (ncols query_points)); [|discriminate].
  destruct (Nat.ltb 1 (ncols query_points)); [|discriminate].
  cbn [bind ret app result fst]. intros H. injection H as <-.
  cbn [path fst snd].
  split.
  - intros ->. cbn [length] in Hx', Hy'.
    destruct x'; [|discriminate Hx']. destruct y'; [|discriminate Hy'].
    reflexivity.
  - intros Hne.
    assert (0 < length reference_indices)%nat
      by (destruct reference_indices; [congruence|simpl; lia]).
    rewrite Hx', Hy'. split; lia.
Qed.

(** X11.  [show_search_path] needs two coordinates: when either cloud has
    fewer than two columns it fails with [IndexError], whatever the trace,
    in the loop or at the first column it cannot slice. *)
Theorem search_path_needs_two_columns
        (reference_points : ndarray) (reference_indices : list nat)
        (query_points : ndarray) (query_indices : list nat) :
  (ncols reference_points < 2)%nat \/ (ncols query_points < 2)%nat ->
  show_search_path reference_points reference_indices
                   query_points query_indices
  = (Raised IndexError, []).
Proof.
  intros Hcols. unfold show_search_path.
  destruct (for_each_path_cases reference_points reference_indices
                                query_points query_indices
                                (seq 0 (length reference_indices - 1)) [] [])
    as [(x' & y' & Hx' & Hy' & ->)| ->]; [|reflexivity].
  cbn [bind]. rewrite !column_cases.
  destruct (Nat.ltb_spec 0 (ncols reference_points)); [|reflexivity].
  destruct (Nat.ltb_spec 1 (ncols reference_points)); [|reflexivity].
  destruct (Nat.ltb_spec 0 (ncols query_points)); [|reflexivity].
  destruct (Nat.ltb_spec 1 (ncols query_points)); [|reflexivity].
  lia.
Qed.



Lemma returned_trace_drawable
      (fuel : nat) (a b : ndarray) (d : R) (ris qis : list nat) :
  valid_input a b -> (2 <= ncols a)%nat ->
  result (find_shortest_distance fuel a b "new") = Returned (RNew d ris qis) ->
  show_search_path a ris b qis
  = (Returned
       (mk_figure (coordinates 0 (rows a), coordinates 1 (rows a))
                  (coordinates 0 (rows b), coordinates 1 (rows b))
                  (coordinates 0 (path_points a b ris qis),
                   coordinates 1 (path_points a b ris qis))),
     []).
Proof.
  intros (Hwa & Hwb & Hdim & Hna & Hnb) Htwo Hnew.
  destruct (new_returned _ _ Hwa Hwb Hdim Hna Hnb _ _ _ _ Hnew) as [Hrun _].
  destruct (run_Forall_lt _ _ 0%nat ris qis (rows_nonempty _ Hna)
                          (rows_nonempty _ Hnb) Hna Hrun) as [Hr Hq].
  apply show_search_path_ok; try assumption.
  - rewrite <- Hdim. exact Htwo.
  - symmetry. apply (run_length _ _ _ _ _ Hrun).
Qed.

(** X12.  The trace method ['new'] returns on valid clouds of at least two
    columns is always accepted by [show_search_path]: no index fails, the
    marks are the first two columns of each cloud, and the path goes, for
    each pass but the last, through the reference point and the query point
    of that pass and then the query point and the reference point of the
    next one. *)
Theorem search_path_accepts_returned_trace
        (fuel : nat) (reference_points query_points : ndarray)
        (d : R) (ris qis : list nat) :
  valid_input reference_points query_points ->
  (2 <= ncols reference_points)%nat ->
  result (find_shortest_distance fuel reference_points query_points "new")
  = Returned (RNew d ris qis) ->
  show_search_path reference_points ris query_points qis
  = (Returned
       (mk_figure
          (coordinates 0 (rows reference_points),
           coordinates 1 (rows reference_points))
          (coordinates 0 (rows query_points),
           coordinates 1 (rows query_points))
          (coordinates 0 (path_points reference_points query_points ris qis),
           coordinates 1 (path_points reference_points query_points ris qis))),
     []).
Proof.
  intros Hvalid Htwo Hnew.
  apply (returned_trace_drawable fuel _ _ d); assumption.
Qed.


(** ** [generate_random_point_cloud] *)

Lemma length_concat_rows (m : nat) (ps : list point) :
  Forall (fun p => length p = m) ps ->
  length (concat ps) = (length ps * m)%nat.
Proof.
  induction 1 as [|p ps Hp Hps IH]; [reflexivity|].
  cbn [concat length]. rewrite length_app, IH, Hp. lia.
Qed.

Lemma chunks_concat (m : nat) (ps : list point) :
  Forall (fun p => length p = m) ps ->
  chunks (length ps) m (concat ps) = ps.
Proof.
  induction 1 as [|p ps Hp Hps IH]; [reflexivity|].
  cbn [concat length chunks].
  rewrite firstn_app, skipn_app, <- Hp, firstn_all, skipn_all, Nat.sub_diag.
  cbn [firstn skipn app]. rewrite app_nil_r.
  rewrite Hp, IH. reflexivity.
Qed.

(** Reshaping an array to the shape it has leaves it as it is. *)
Lemma reshape_same_shape (a : ndarray) :
  wf_ndarray a -> reshape a (shape0 a) (ncols a) = Some a.
Proof.
  intros Hwf. unfold reshape, shape0.
  rewrite (length_concat_rows (ncols a)) by exact Hwf.
  rewrite Nat.eqb_refl, (chunks_concat (ncols a)) by exact Hwf.
  destruct a; reflexivity.
Qed.

Lemma stream_sampler_contract : sampler_contract stream_sampler.
Proof.
  intros g mean cov n sample g' _ _. unfold stream_sampler.
  destruct mean as [|m0 mean']; [discriminate|].
  intros H. injection H as <- _.
  unfold wf_ndarray, shape0. cbn [rows ncols].
  rewrite length_map, length_seq. repeat split.
  apply Forall_forall. intros p Hp. apply in_map_iff in Hp.
  destruct Hp as (i & <- & _). cbn [length].
  rewrite length_map, length_seq. reflexivity.
Qed.

Lemma stream_sampler_draws_floats : sampler_draws_floats stream_sampler.
Proof.
  intros g mean cov n sample g'. unfold stream_sampler.
  destruct mean as [|m0 mean']; [discriminate|].
  intros H. injection H as <- _. reflexivity.
Qed.

Section GeneratorFacts.

Variable rng : Type.
Variable sampler : rng -> point -> ndarray -> nat -> exn + ndarray * rng.
Hypothesis numpy_contract : sampler_contract sampler.

(** When the assertion holds the outcome is the sampler's own: its error,
    or its sample, which the reshape leaves as it is. *)
Lemma generate_passes (g : rng) (n : nat) (mean : point) (cov : ndarray) :
  shape0 cov = length mean -> ncols cov = length mean ->
  generate_random_point_cloud rng sampler g n mean cov
  = match sampler g mean cov n with
    | inl e => inl (NumpyError e)
    | inr r => inr r
    end.
Proof.
  intros Hrows Hcols. unfold generate_random_point_cloud.
  rewrite Hrows, Hcols, Nat.eqb_refl. cbn [andb].
  destruct (sampler g mean cov n) as [e|[sample g']] eqn:E; [reflexivity|].
  destruct (numpy_contract g mean cov n sample g' Hrows Hcols E)
    as (Hwf & Hn & Hm).
  rewrite <- Hn, <- Hm, (reshape_same_shape sample Hwf). reflexivity.
Qed.


End GeneratorFacts.

(** X14.  For a sampler that keeps numpy's contract, a mean of length [dim]
    and a [dim x dim] covariance: whenever the sampler returns a sample,
    [generate_random_point_cloud] returns that sample as drawn (its
    [reshape] changes nothing), with the generator advanced once: an array
    of [number_of_points] rows of [dim] columns. *)
Theorem generated_cloud_is_the_sample
        (rng : Type)
        (sampler : rng -> point -> ndarray -> nat -> exn + ndarray * rng)
        (g : rng) (number_of_points : nat) (mean : point) (cov : ndarray)
        (sample : ndarray) (g' : rng) :
  sampler_contract sampler ->
  shape0 cov = length mean -> ncols cov = length mean ->
  sampler g mean cov number_of_points = inr (sample, g') ->
  generate_random_point_cloud rng sampler g number_of_points mean cov
  = inr (sample, g') /\
  wf_ndarray sample /\
  shape0 sample = number_of_points /\
  ncols sample = length mean.
Proof.
  intros Hc Hrows Hcols Hdraw.
  rewrite (generate_passes rng sampler Hc g _ _ _ Hrows Hcols), Hdraw.
  split; [reflexivity|].
  exact (Hc g mean cov number_of_points sample g' Hrows Hcols Hdraw).
Qed.


(** X16.  The notebook's cells in a row.  For a sampler that keeps numpy's
    contract and draws floats, two means of the same length, at least 2,
    covariances of that size, positive numbers of points and two draws that
    succeed: both clouds are generated as drawn; with exact lookups that
    break ties by lowest index, method ['new'] returns on them after at most
    as many passes as there are reference points; [show_search_path]
    accepts the trace it returns; and method ['exhaustive'] returns a
    scalar that is not above the distance of method ['new']. *)
Theorem notebook_cells_run
        (rng : Type)
        (sampler : rng -> point -> ndarray -> nat -> exn + ndarray * rng)
        (g g1 g2 : rng) (n_reference n_query : nat)
        (reference_mean query_mean : point)
        (reference_cov query_cov : ndarray)
        (reference_points query_points : ndarray) :
  sampler_contract sampler ->
  sampler_draws_floats sampler ->
  length query_mean = length reference_mean ->
  (2 <= length reference_mean)%nat ->
  shape0 reference_cov = length reference_mean ->
  ncols reference_cov = length reference_mean ->
  shape0 query_cov = length query_mean ->
  ncols query_cov = length query_mean ->
  (0 < n_reference)%nat -> (0 < n_query)%nat ->
  sampler g reference_mean reference_cov n_reference
  = inr (reference_points, g1) ->
  sampler g1 query_mean query_cov n_query = inr (query_points, g2) ->
  generate_random_point_cloud rng sampler g n_reference reference_mean
                              reference_cov
  = inr (reference_points, g1) /\
  generate_random_point_cloud rng sampler g1 n_query query_mean query_cov
  = inr (query_points, g2) /\
  exists d ris qis fig d',
    result (find_shortest_distance n_reference reference_points query_points
                                   "new")
    = Returned (RNew d ris qis) /\
    (length ris <= n_reference)%nat /\
    result (show_search_path reference_points ris query_points qis)
    = Returned fig /\
    result (find_shortest_distance 0 reference_points query_points
                                   "exhaustive")
    = Returned (RExhaustive d') /\
    (d' <= d)%R.
Proof.
  intros Hc Hf Hlen Htwo Hr1 Hc1 Hr2 Hc2 Hn1 Hn2 Ea Eb.
  set (a := reference_points) in *. set (b := query_points) in *.
  pose proof (generate_passes rng sampler Hc g n_reference _ _ Hr1 Hc1) as G1.
  rewrite Ea in G1.
  pose proof (generate_passes rng sampler Hc g1 n_query _ _ Hr2 Hc2) as G2.
  rewrite Eb in G2.
  destruct (Hc _ _ _ _ _ _ Hr1 Hc1 Ea) as (Hwa & Hna & Hma).
  destruct (Hc _ _ _ _ _ _ Hr2 Hc2 Eb) as (Hwb & Hnb & Hmb).
  assert (Hdim : ncols a = ncols b) by congruence.
  assert (Ha : (0 < shape0 a)%nat) by lia.
  assert (Hb : (0 < shape0 b)%nat) by lia.
  assert (Hvalid : valid_input a b) by (repeat split; assumption).
  assert (Hno : no_wraparound a b).
  { intros Hint. rewrite (Hf _ _ _ _ _ _ Ea) in Hint. discriminate Hint. }
  pose proof (rows_nonempty _ Ha) as HA.
  pose proof (rows_nonempty _ Hb) as HB.
  destruct (alternate_enough_fuel _ _ HA HB _ (Nat.le_refl _))
    as (rs & qs & Halt).
  pose proof (alternate_run _ _ _ _ _ _ Halt) as Hrun.
  pose proof (run_length_le _ _ _ _ _ HA HB Ha Hrun) as Hle.
  assert (Hf0 : alternate (rows a) (rows b) n_reference 0 = Some (rs, qs)).
  { eapply alternate_mono; [exact (run_exact_fuel _ _ _ _ _ Hrun)|].
    unfold shape0 in Hna. lia. }
  assert (Hnew : result (find_shortest_distance n_reference a b "new")
                 = Returned (RNew (returned_distance a b rs qs) rs qs)).
  { rewrite new_result by assumption. rewrite Hf0. reflexivity. }
  assert (Htwo' : (2 <= ncols a)%nat) by lia.
  pose proof (returned_trace_drawable _ _ _ _ _ _ Hvalid Htwo' Hnew) as Hshow.
  destruct (exhaustive_minimum _ _ Hdim Ha Hb 0)
    as (d' & Hd' & _ & Hmin & _).
  destruct (run_last_lt _ _ HA HB 0%nat rs qs Ha Hrun) as [Hlr Hlq].
  split; [exact G1|]. split; [exact G2|].
  eexists _, rs, qs, _, d'.
  split; [exact Hnew|].
  split; [unfold shape0 in Hna; lia|].
  split; [rewrite Hshow; reflexivity|].
  split; [exact Hd'|].
  rewrite (returned_distance_exact _ _ _ _ Hno Hlr Hlq).
  apply (Hmin (last rs 0%nat) (last qs 0%nat)); apply nth_error_nth_lt;
    assumption.
Qed.

(** ** The further properties at concrete inputs *)

(** X1 on the scenario of the specification, with method ['fast']. *)
Lemma unknown_method_raises_after_first_tree_witness :
  ((0 < shape0 scenario_reference)%nat /\
   (0 < shape0 scenario_query)%nat /\
   "fast"%string <> "new"%string /\ "fast"%string <> "exhaustive"%string) /\
  find_shortest_distance 0 scenario_reference scenario_query "fast"
  = (Raised (Exception "The selected method is incorrect! Only 'new' or 'exhaustive' method can be used."),
     [EvKDTree scenario_query]).
Proof.
  split.
  - split; [unfold shape0; simpl; lia|].
    split; [unfold shape0; simpl; lia|].
    split; discriminate.
  - apply (unknown_method_raises_after_first_tree
             0 scenario_reference scenario_query "fast").
    + unfold shape0; simpl; lia.
    + unfold shape0; simpl; lia.
    + discriminate.
    + discriminate.
Defined.

(** X2 on the zigzag clouds, with three units of fuel for three points. *)
Lemma new_returns_within_n_passes_witness :
  (valid_input zigzag_reference zigzag_query /\
   (shape0 zigzag_reference <= 3)%nat) /\
  exists d ris qis,
    result (find_shortest_distance 3 zigzag_reference zigzag_query "new")
    = Returned (RNew d ris qis) /\
    NoDup ris /\
    (length ris <= shape0 zigzag_reference)%nat.
Proof.
  split.
  - split; [apply valid_inputb_true; reflexivity|unfold shape0; simpl; lia].
  - apply (new_returns_within_n_passes 3 zigzag_reference zigzag_query).
    + apply valid_inputb_true; reflexivity.
    + unfold shape0; simpl; lia.
Defined.

(** X3 on the zigzag clouds. *)
Lemma returned_pair_mutually_nearest_witness :
  (valid_input zigzag_reference zigzag_query /\
   result (find_shortest_distance 3 zigzag_reference zigzag_query "new")
   = Returned (RNew (sqrt 8) [0; 1; 2]%nat [0; 1; 1]%nat)) /\
  (forall j b, nth_error (rows zigzag_query) j = Some b ->
     (sqrt 8 <= distance (nth (last [0; 1; 2]%nat 0%nat)
                              (rows zigzag_reference) []) b)%R) /\
  (forall i a, nth_error (rows zigzag_reference) i = Some a ->
     (sqrt 8 <= distance a (nth (last [0; 1; 1]%nat 0%nat)
                                (rows zigzag_query) []))%R).
Proof.
  split.
  - split; [apply valid_inputb_true; reflexivity|reflexivity].
  - apply (returned_pair_mutually_nearest 3 zigzag_reference zigzag_query
                                          (sqrt 8) [0; 1; 2]%nat [0; 1; 1]%nat).
    + apply valid_inputb_true; reflexivity.
    + reflexivity.
Defined.

(** X4 on the zigzag clouds. *)
Lemma trace_indices_in_range_witness :
  (valid_input zigzag_reference zigzag_query /\
   result (find_shortest_distance 3 zigzag_reference zigzag_query "new")
   = Returned (RNew (sqrt 8) [0; 1; 2]%nat [0; 1; 1]%nat)) /\
  Forall (fun r => (r < shape0 zigzag_reference)%nat) [0; 1; 2]%nat /\
  Forall (fun q => (q < shape0 zigzag_query)%nat) [0; 1; 1]%nat.
Proof.
  split.
  - split; [apply valid_inputb_true; reflexivity|reflexivity].
  - apply (trace_indices_in_range 3 zigzag_reference zigzag_query
                                  (sqrt 8) [0; 1; 2]%nat [0; 1; 1]%nat).
    + apply valid_inputb_true; reflexivity.
    + reflexivity.
Defined.



(** X7 on the zigzag clouds. *)
Lemma exhaustive_log_single_array_lookup_witness :
  (ncols zigzag_reference = ncols zigzag_query /\
   (0 < shape0 zigzag_reference)%nat /\ (0 < shape0 zigzag_query)%nat) /\
  events (find_shortest_distance 0 zigzag_reference zigzag_query "exhaustive")
  = [EvKDTree zigzag_query; EvQueryArray zigzag_query zigzag_reference].
Proof.
  split.
  - repeat split; unfold shape0; simpl; lia.
  - apply (exhaustive_log_single_array_lookup
             0 zigzag_reference zigzag_query);
      unfold shape0; simpl; lia.
Defined.

(** X8 with a single reference point. *)
Lemma single_reference_point_agrees_witness :
  (valid_input lone_point zigzag_query /\
   no_wraparound lone_point zigzag_query /\
   shape0 lone_point = 1%nat) /\
  exists d q,
    result (find_shortest_distance 1 lone_point zigzag_query "new")
    = Returned (RNew d [0%nat] [q]) /\
    result (find_shortest_distance 0 lone_point zigzag_query "exhaustive")
    = Returned (RExhaustive d).
Proof.
  split.
  - split; [apply valid_inputb_true; reflexivity|].
    split; [apply no_wraparoundb_true; reflexivity|reflexivity].
  - apply (single_reference_point_agrees 0 0 lone_point zigzag_query).
    + apply valid_inputb_true; reflexivity.
    + apply no_wraparoundb_true; reflexivity.
    + reflexivity.
Defined.

(** X9 with a single query point. *)
Lemma single_query_point_agrees_witness :
  (valid_input zigzag_reference lone_point /\
   no_wraparound zigzag_reference lone_point /\
   shape0 lone_point = 1%nat) /\
  exists d ris qis,
    result (find_shortest_distance 2 zigzag_reference lone_point "new")
    = Returned (RNew d ris qis) /\
    (length ris <= 2)%nat /\
    result (find_shortest_distance 0 zigzag_reference lone_point "exhaustive")
    = Returned (RExhaustive d).
Proof.
  split.
  - split; [apply valid_inputb_true; reflexivity|].
    split; [apply no_wraparoundb_true; reflexivity|reflexivity].
  - apply (single_query_point_agrees 0 0 zigzag_reference lone_point).
    + apply valid_inputb_true; reflexivity.
    + apply no_wraparoundb_true; reflexivity.
    + reflexivity.
Defined.

(** X10 on the trace of the zigzag clouds: eight points for three passes. *)
Lemma search_path_has_four_points_per_step_witness :
  result (show_search_path zigzag_reference [0; 1; 2]%nat
                           zigzag_query [0; 1; 1]%nat)
  = Returned (mk_figure ([0; 14; 20], [0; 1; 0]) ([8; 18], [3; 2])
                        ([0; 8; 18; 14; 14; 18; 18; 20],
                         [0; 3; 2; 1; 1; 2; 2; 0])) /\
  ([0; 1; 2]%nat = [] ->
   path (mk_figure ([0; 14; 20], [0; 1; 0]) ([8; 18], [3; 2])
                   ([0; 8; 18; 14; 14; 18; 18; 20],
                    [0; 3; 2; 1; 1; 2; 2; 0]))
   = ([], [])) /\
  ([0; 1; 2]%nat <> [] ->
   Z.of_nat (length (fst (path (mk_figure
                                  ([0; 14; 20], [0; 1; 0]) ([8; 18], [3; 2])
                                  ([0; 8; 18; 14; 14; 18; 18; 20],
                                   [0; 3; 2; 1; 1; 2; 2; 0])))))
   = 4 * (Z.of_nat (length [0; 1; 2]%nat) - 1) /\
   Z.of_nat (length (snd (path (mk_figure
                                  ([0; 14; 20], [0; 1; 0]) ([8; 18], [3; 2])
                                  ([0; 8; 18; 14; 14; 18; 18; 20],
                                   [0; 3; 2; 1; 1; 2; 2; 0])))))
   = 4 * (Z.of_nat (length [0; 1; 2]%nat) - 1)).
Proof.
  split.
  - reflexivity.
  - apply (search_path_has_four_points_per_step
             zigzag_reference [0; 1; 2]%nat zigzag_query [0; 1; 1]%nat).
    reflexivity.
Defined.

(** X11 on the stair of size 2, whose points have one coordinate. *)
Lemma search_path_needs_two_columns_witness :
  ((ncols (stair_reference 2) < 2)%nat \/ (ncols (stair_query 2) < 2)%nat) /\
  show_search_path (stair_reference 2) [0; 1; 2]%nat
                   (stair_query 2) [0; 1; 1]%nat
  = (Raised IndexError, []).
Proof.
  split.
  - left; simpl; lia.
  - apply (search_path_needs_two_columns
             (stair_reference 2) [0; 1; 2]%nat (stair_query 2) [0; 1; 1]%nat).
    left; simpl; lia.
Defined.

(** X12 on the zigzag clouds. *)
Lemma search_path_accepts_returned_trace_witness :
  (valid_input zigzag_reference zigzag_query /\
   (2 <= ncols zigzag_reference)%nat /\
   result (find_shortest_distance 3 zigzag_reference zigzag_query "new")
   = Returned (RNew (sqrt 8) [0; 1; 2]%nat [0; 1; 1]%nat)) /\
  show_search_path zigzag_reference [0; 1; 2]%nat zigzag_query [0; 1; 1]%nat
  = (Returned
       (mk_figure
          (coordinates 0 (rows zigzag_reference),
           coordinates 1 (rows zigzag_reference))
          (coordinates 0 (rows zigzag_query),
           coordinates 1 (rows zigzag_query))
          (coordinates 0 (path_points zigzag_reference zigzag_query
                                      [0; 1; 2]%nat [0; 1; 1]%nat),
           coordinates 1 (path_points zigzag_reference zigzag_query
                                      [0; 1; 2]%nat [0; 1; 1]%nat))),
     []).
Proof.
  split.
  - split; [apply valid_inputb_true; reflexivity|].
    split; [simpl; lia|reflexivity].
  - apply (search_path_accepts_returned_trace
             3 zigzag_reference zigzag_query
             (sqrt 8) [0; 1; 2]%nat [0; 1; 1]%nat).
    + apply valid_inputb_true; reflexivity.
    + simpl; lia.
    + reflexivity.
Defined.


(** X14 with the notebook's parameters of the reference cloud, three points
    and the stream sampler. *)
Lemma generated_cloud_is_the_sample_witness :
  (sampler_contract stream_sampler /\
   shape0 notebook_reference_cov = length notebook_reference_mean /\
   ncols notebook_reference_cov = length notebook_reference_mean /\
   stream_sampler zigzag_stream notebook_reference_mean
                  notebook_reference_cov 3
   = inr (zigzag_sample_reference, zigzag_stream_rest)) /\
  generate_random_point_cloud (nat -> Z) stream_sampler zigzag_stream 3
                              notebook_reference_mean notebook_reference_cov
  = inr (zigzag_sample_reference, zigzag_stream_rest) /\
  wf_ndarray zigzag_sample_reference /\
  shape0 zigzag_sample_reference = 3%nat /\
  ncols zigzag_sample_reference = length notebook_reference_mean.
Proof.
  split.
  - split; [exact stream_sampler_contract|].
    split; [reflexivity|]. split; reflexivity.
  - apply (generated_cloud_is_the_sample
             (nat -> Z) stream_sampler zigzag_stream 3
             notebook_reference_mean notebook_reference_cov
             zigzag_sample_reference zigzag_stream_rest).
    + exact stream_sampler_contract.
    + reflexivity.
    + reflexivity.
    + reflexivity.
Defined.


(** X16 with the notebook's means and covariances, three reference points
    and two query points, and the stream that draws the zigzag clouds, on
    which the alternation takes three passes. *)
Lemma notebook_cells_run_witness :
  (sampler_contract stream_sampler /\
   sampler_draws_floats stream_sampler /\
   length notebook_query_mean = length notebook_reference_mean /\
   (2 <= length notebook_reference_mean)%nat /\
   shape0 notebook_reference_cov = length notebook_reference_mean /\
   ncols notebook_reference_cov = length notebook_reference_mean /\
   shape0 notebook_query_cov = length notebook_query_mean /\
   ncols notebook_query_cov = length notebook_query_mean /\
   (0 < 3)%nat /\ (0 < 2)%nat /\
   stream_sampler zigzag_stream notebook_reference_mean
                  notebook_reference_cov 3
   = inr (zigzag_sample_reference, zigzag_stream_rest) /\
   stream_sampler zigzag_stream_rest notebook_query_mean notebook_query_cov 2
   = inr (zigzag_sample_query, zigzag_stream_end)) /\
  generate_random_point_cloud (nat -> Z) stream_sampler zigzag_stream 3
                              notebook_reference_mean notebook_reference_cov
  = inr (zigzag_sample_reference, zigzag_stream_rest) /\
  generate_random_point_cloud (nat -> Z) stream_sampler zigzag_stream_rest 2
                              notebook_query_mean notebook_query_cov
  = inr (zigzag_sample_query, zigzag_stream_end) /\
  exists d ris qis fig d',
    result (find_shortest_distance 3 zigzag_sample_reference
                                   zigzag_sample_query "new")
    = Returned (RNew d ris qis) /\
    (length ris <= 3)%nat /\
    result (show_search_path zigzag_sample_reference ris
                             zigzag_sample_query qis)
    = Returned fig /\
    result (find_shortest_distance 0 zigzag_sample_reference
                                   zigzag_sample_query "exhaustive")
    = Returned (RExhaustive d') /\
    (d' <= d)%R.
Proof.
  split.
  - split; [exact stream_sampler_contract|].
    split; [exact stream_sampler_draws_floats|].
    repeat split; simpl; lia.
  - apply (notebook_cells_run
             (nat -> Z) stream_sampler
             zigzag_stream zigzag_stream_rest zigzag_stream_end 3 2
             notebook_reference_mean notebook_query_mean
             notebook_reference_cov notebook_query_cov
             zigzag_sample_reference zigzag_sample_query).
    + exact stream_sampler_contract.
    + exact stream_sampler_draws_floats.
    + reflexivity.
    + simpl; lia.
    + reflexivity.
    + reflexivity.
    + reflexivity.
    + reflexivity.
    + lia.
    + lia.
    + reflexivity.
    + reflexivity.
Defined.
